(** * Square-root benchmark (src/sqrt/main.cpp): embedding and properties

    The program times three single-precision square-root routines on the
    fixed input 42 and prints one report per routine.  This file embeds

    - the IEEE-754 binary32 storage format and the arithmetic the routines
      use (on top of the Standard Library's [SpecFloat]),
    - the four routines [sqrt_approx], [sqrt_1], [sqrt_2], [sqrt_3] in an
      exception monad,
    - [print_result] and [main] in a monad that threads the clock and the
      standard output,

    and proves the properties stated about them.  Part I holds the
    definitions, Part II the lemmas and theorems. *)

From Stdlib Require Import ZArith QArith Qpower Lia List Bool String Ascii.
From Stdlib Require Import Floats.SpecFloat.
Import ListNotations.

Local Open Scope Z_scope.

(* ================================================================== *)
(** * Part I: definitions *)

(** ** Machine integers *)

Module Int.

(** [uint32_t]: a value in [0, 2^32); arithmetic wraps modulo 2^32. *)
Definition modulus32 : Z := 2 ^ 32.
Definition wrap32 (x : Z) : Z := x mod modulus32.
Definition add32 (a b : Z) : Z := wrap32 (a + b).
Definition sub32 (a b : Z) : Z := wrap32 (a - b).

(** [>>] on an unsigned operand is a logical shift. *)
Definition shr32 (a n : Z) : Z := Z.shiftr a n.

Definition in_uint32 (x : Z) : Prop := 0 <= x < modulus32.

(** [int64_t]. *)
Definition int64_min : Z := - 2 ^ 63.
Definition int64_max : Z := 2 ^ 63 - 1.
Definition fits_int64 (x : Z) : bool := (int64_min <=? x) && (x <=? int64_max).

(** An [int64_t] passed where [printf] expects [unsigned long]. *)
Definition as_uint64 (x : Z) : Z := x mod 2 ^ 64.

End Int.

(** ** IEEE-754 formats

    A C++ [float] is modelled by its 32 bits of storage (sign, 8 exponent
    bits, 23 fraction bits), so that the union of [sqrt_approx] reads the
    very same object through either member.  Its numeric meaning is given by
    [decode]; arithmetic decodes, computes with [SpecFloat] at precision 24
    and re-encodes.  [SpecFloat] has a single NaN, so the operations treat
    NaNs on the patterns, the way the SSE instructions of x86-64 do: a NaN
    operand is returned with its sign and payload, made quiet (the first
    operand if both are NaNs); an invalid operation on numbers (inf / inf,
    the root of a negative number) gives the default NaN 0xFFC00000. *)

Module Binary32.

Definition prec : Z := 24.
Definition emax : Z := 128.

(** The storage of a [float]. *)
Definition float : Set := Z.

Definition sign_bit (b : float) : bool := Z.testbit b 31.
Definition exponent_field (b : float) : Z := Z.land (Z.shiftr b 23) 255.
Definition fraction_field (b : float) : Z := Z.land b (2 ^ 23 - 1).

Definition decode (b : float) : spec_float :=
  let s := sign_bit b in
  let e := exponent_field b in
  let m := fraction_field b in
  if e =? 0 then
    match m with
    | Zpos p => S754_finite s p (-149)
    | _ => S754_zero s
    end
  else if e =? 255 then
    if m =? 0 then S754_infinity s else S754_nan
  else
    match m + 2 ^ 23 with
    | Zpos p => S754_finite s p (e - 150)
    | _ => S754_nan
    end.

Definition sign_weight (s : bool) : Z := if s then 2 ^ 31 else 0.
Definition default_nan : float := 0xFFC00000.

Definition encode (x : spec_float) : float :=
  match x with
  | S754_zero s => sign_weight s
  | S754_infinity s => sign_weight s + 0x7F800000
  | S754_nan => default_nan
  | S754_finite s m e =>
      if Zpos m <? 2 ^ 23 then sign_weight s + Zpos m
      else sign_weight s + (e + 150) * 2 ^ 23 + (Zpos m - 2 ^ 23)
  end.

Definition is_nan (b : float) : bool :=
  match decode b with S754_nan => true | _ => false end.

(** A NaN made quiet: the top fraction bit is set, the rest is kept. *)
Definition quiet (b : float) : float := Z.lor b 0x00400000.

(** The pattern of the result of an operation on numbers. *)
Definition result_of (r : spec_float) : float :=
  match r with
  | S754_nan => default_nan
  | _ => encode r
  end.

Definition is_finite (b : float) : bool :=
  match decode b with
  | S754_zero _ | S754_finite _ _ _ => true
  | _ => false
  end.

(** The rational a finite pattern denotes. *)
Definition value (b : float) : option Q :=
  match decode b with
  | S754_zero _ => Some 0%Q
  | S754_finite s m e =>
      Some (inject_Z (if s then Zneg m else Zpos m) * Qpower 2 e)%Q
  | _ => None
  end.

(** Round an arbitrary finite value to the format. *)
Definition round (x : spec_float) : spec_float :=
  match x with
  | S754_finite s m e => binary_round prec emax s m e
  | _ => x
  end.

Definition add (a b : float) : float :=
  if is_nan a then quiet a
  else if is_nan b then quiet b
  else result_of (SFadd prec emax (decode a) (decode b)).

Definition div (a b : float) : float :=
  if is_nan a then quiet a
  else if is_nan b then quiet b
  else result_of (SFdiv prec emax (decode a) (decode b)).

Definition ltb (a b : float) : bool := SFltb (decode a) (decode b).
Definition leb (a b : float) : bool := SFleb (decode a) (decode b).

(** Conversion of an integer: [(float)num], the literal [0] of a
    comparison. *)
Definition of_int (n : Z) : float := encode (binary_normalize prec emax n 0 false).

End Binary32.

(** A [double] is modelled by its 64 bits of storage as well (sign, 11
    exponent bits, 52 fraction bits), with the same treatment of NaNs. *)
Module Binary64.

Definition prec : Z := 53.
Definition emax : Z := 1024.

(** The storage of a [double]. *)
Definition double : Set := Z.

Definition sign_bit (b : double) : bool := Z.testbit b 63.
Definition exponent_field (b : double) : Z := Z.land (Z.shiftr b 52) 2047.
Definition fraction_field (b : double) : Z := Z.land b (2 ^ 52 - 1).

Definition decode (b : double) : spec_float :=
  let s := sign_bit b in
  let e := exponent_field b in
  let m := fraction_field b in
  if e =? 0 then
    match m with
    | Zpos p => S754_finite s p (-1074)
    | _ => S754_zero s
    end
  else if e =? 2047 then
    if m =? 0 then S754_infinity s else S754_nan
  else
    match m + 2 ^ 52 with
    | Zpos p => S754_finite s p (e - 1075)
    | _ => S754_nan
    end.

Definition sign_weight (s : bool) : Z := if s then 2 ^ 63 else 0.
Definition default_nan : double := 0xFFF8000000000000.

Definition encode (x : spec_float) : double :=
  match x with
  | S754_zero s => sign_weight s
  | S754_infinity s => sign_weight s + 0x7FF0000000000000
  | S754_nan => default_nan
  | S754_finite s m e =>
      if Zpos m <? 2 ^ 52 then sign_weight s + Zpos m
      else sign_weight s + (e + 1075) * 2 ^ 52 + (Zpos m - 2 ^ 52)
  end.

Definition is_nan (b : double) : bool :=
  match decode b with S754_nan => true | _ => false end.

Definition quiet (b : double) : double := Z.lor b 0x0008000000000000.

Definition result_of (r : spec_float) : double :=
  match r with
  | S754_nan => default_nan
  | _ => encode r
  end.

(** Round an arbitrary finite value to the format. *)
Definition round (x : spec_float) : spec_float :=
  match x with
  | S754_finite s m e => binary_round prec emax s m e
  | _ => x
  end.

Definition mul (a b : double) : double :=
  if is_nan a then quiet a
  else if is_nan b then quiet b
  else result_of (SFmul prec emax (decode a) (decode b)).

(** The literal [0.5]. *)
Definition half : double := 0x3FE0000000000000.

(** Implicit conversions between the two formats.  Widening is exact,
    narrowing rounds to nearest even; a NaN keeps its sign and the 23 top
    bits of its payload, and comes out quiet. *)
Definition of_float (b : Binary32.float) : double :=
  match Binary32.decode b with
  | S754_nan =>
      quiet (sign_weight (Binary32.sign_bit b) + 0x7FF0000000000000
             + Z.shiftl (Binary32.fraction_field b) 29)
  | x => encode (round x)
  end.

Definition to_float (d : double) : Binary32.float :=
  match decode d with
  | S754_nan =>
      Binary32.quiet (Binary32.sign_weight (sign_bit d) + 0x7F800000
                      + Z.shiftr (fraction_field d) 29)
  | x => Binary32.encode (Binary32.round x)
  end.

End Binary64.

Definition float : Set := Binary32.float.
Definition double : Set := Binary64.double.

(** The [float] operand [0] of the guards, 42 as a [float] and as a
    [double], and the literal [0.5f]. *)
Definition zero : float := Binary32.of_int 0.
Definition f42 : float := Binary32.of_int 42.
Definition d42 : double := 0x4045000000000000.
Definition half_f : float := 0x3F000000.

(** ** Exceptions and the mathematical library *)

(** [std::invalid_argument] with its [what()] string. *)
Inductive exception : Set :=
| invalid_argument (what : string).

(** A call returns a value or leaves through an exception. *)
Inductive res (A : Type) : Type :=
| Return (a : A)
| Throw (e : exception).
Arguments Return {A} a.
Arguments Throw {A} e.

Definition rbind {A B : Type} (r : res A) (k : A -> res B) : res B :=
  match r with
  | Return a => k a
  | Throw e => Throw e
  end.

Module Libm.

(** [std::sqrt(float)]: IEEE-754 requires the correctly rounded root. *)
Definition sqrtf (x : float) : float :=
  if Binary32.is_nan x then Binary32.quiet x
  else Binary32.result_of (SFsqrt Binary32.prec Binary32.emax (Binary32.decode x)).

End Libm.

(** A sample [pow] and a sample [powf], both correctly rounded at the
    exponent one half (the only exponent the program uses). *)
Module Sample.

Definition pow_rounded (x y : double) : double :=
  if Binary64.is_nan x then Binary64.quiet x
  else Binary64.result_of (SFsqrt Binary64.prec Binary64.emax (Binary64.decode x)).

Definition powf_rounded (x y : float) : float := Libm.sqrtf x.

End Sample.

(** ** The square-root routines *)

Definition negative_input : string :=
  "Error: input must be greater than or equal to zero.".

(** [union { float f; uint32_t i; }]: one 32-bit object, two views. *)
Record union_f_i : Set := Union { storage : Z }.
Definition union_of_f (f : float) : union_f_i := Union f.
Definition get_i (u : union_f_i) : Z := storage u.
Definition set_i (u : union_f_i) (i : Z) : union_f_i := Union i.
Definition get_f (u : union_f_i) : float := storage u.

(** [sqrt_approx], main.cpp lines 21-34. *)
Definition sqrt_approx (num : float) : res float :=
  if Binary32.ltb num zero then
    Throw (invalid_argument negative_input)
  else
    let val := union_of_f num in
    let val := set_i val (Int.sub32 (get_i val) (Z.shiftl 1 23)) in
    let val := set_i val (Int.shr32 (get_i val) 1) in
    let val := set_i val (Int.add32 (get_i val) (Z.shiftl 1 29)) in
    Return (get_f val).

(** What [sqrt_approx] leaves in the union once the guard is passed. *)
Definition approx_bits (num : float) : Z :=
  Int.add32 (Int.shr32 (Int.sub32 num (Z.shiftl 1 23)) 1) (Z.shiftl 1 29).

(** [sqrt_1], lines 43-50.  The library gives no closed form for [pow], so
    it is a parameter.  The exponent [0.5] is a [double] literal: [num] is
    widened, the double-precision [pow] is called and its result is narrowed
    by the [return]. *)
Definition sqrt_1 (pow : double -> double -> double) (num : float) : res float :=
  if Binary32.ltb num zero then
    Throw (invalid_argument negative_input)
  else
    Return (Binary64.to_float (pow (Binary64.of_float num) Binary64.half)).

(** [sqrt_2], lines 59-66. *)
Definition sqrt_2 (num : float) : res float :=
  if Binary32.ltb num zero then
    Throw (invalid_argument negative_input)
  else
    Return (Libm.sqrtf num).

(** The expression [0.5 * (x + (num / x))] converted to [float]: the
    quotient and the sum are [float] operations, the product with the
    [double] literal is a [double] operation. *)
Definition newton_step (num x : float) : float :=
  Binary64.to_float
    (Binary64.mul Binary64.half
       (Binary64.of_float (Binary32.add x (Binary32.div num x)))).

(** [sqrt_3], lines 77-87, with the routine called for the initial guess
    as a parameter. *)
Definition sqrt_3_from (guess : float -> res float) (num : float) : res float :=
  if Binary32.ltb num zero then
    Throw (invalid_argument negative_input)
  else
    rbind (guess num) (fun x =>
    let x := newton_step num x in
    Return (newton_step num x)).

Definition sqrt_3 : float -> res float := sqrt_3_from sqrt_approx.

(** ** The process: clock, standard output, undefined behaviour *)

(** What the process can observe or change.  [Clock::now()] is the only
    input read while the program runs: [clock_reads] counts the readings
    taken so far.  [environ] is the environment block the process was
    started with. *)
Record world : Type := World {
  environ : list (string * string);
  clock_reads : nat;
  stdout : string
}.

(** A run ends normally, with an exception nobody caught, or in undefined
    behaviour (signed overflow, division by zero, use of an uninitialised
    variable). *)
Inductive outcome (A : Type) : Type :=
| Done (a : A) (w : world)
| Uncaught (e : exception) (w : world)
| Undefined.
Arguments Done {A} a w.
Arguments Uncaught {A} e w.
Arguments Undefined {A}.

Definition prog (A : Type) : Type := world -> outcome A.

Definition ret {A : Type} (a : A) : prog A := fun w => Done a w.

Definition bind {A B : Type} (m : prog A) (k : A -> prog B) : prog B :=
  fun w =>
    match m w with
    | Done a w' => k a w'
    | Uncaught e w' => Uncaught e w'
    | Undefined => Undefined
    end.

Notation "x <- m ;; k" := (bind m (fun x => k))
  (at level 61, m at next level, right associativity).
Notation "m ;;; k" := (bind m (fun _ => k))
  (at level 61, right associativity).

(** A call of one of the routines: its exception, if any, leaves the
    caller too, as no [try] block exists in the program. *)
Definition call {A : Type} (r : res A) : prog A :=
  fun w =>
    match r with
    | Return a => Done a w
    | Throw e => Uncaught e w
    end.

Definition undefined {A : Type} : prog A := fun _ => Undefined.

(** A signed 64-bit result: overflow is undefined. *)
Definition int64 (x : Z) : prog Z :=
  if Int.fits_int64 x then ret x else undefined.

(** [/] on [int64_t]: truncates toward zero. *)
Definition div64 (a b : Z) : prog Z :=
  if b =? 0 then undefined else int64 (Z.quot a b).

(** Reading a local that may not have been assigned. *)
Definition read {A : Type} (v : option A) : prog A :=
  match v with
  | Some a => ret a
  | None => undefined
  end.

(** ** printf *)

Module Printf.

Definition newline : string := String "010"%char EmptyString.
Definition tab : string := String "009"%char EmptyString.

Definition digit (d : Z) : ascii := ascii_of_nat (48 + Z.to_nat d).

(** The [k] low decimal digits of [n], most significant first. *)
Fixpoint digits (k : nat) (n : Z) : string :=
  match k with
  | O => EmptyString
  | S k' => (digits k' (n / 10) ++ String (digit (n mod 10)) EmptyString)%string
  end.

Fixpoint strip_zeros (k : nat) (s : string) : string :=
  match k, s with
  | S k', String "0"%char rest => strip_zeros k' rest
  | _, _ => s
  end.

(** [n >= 0] in decimal without leading zeros. *)
Definition unsigned_decimal (n : Z) : string :=
  let k := S (Z.to_nat (Z.log2 n)) in
  strip_zeros (pred k) (digits k n).

(** [%d] *)
Definition fmt_d (n : Z) : string :=
  if n <? 0 then ("-" ++ unsigned_decimal (- n))%string else unsigned_decimal n.

(** [%lu] applied to an [int64_t]: the same 64 bits read as unsigned. *)
Definition fmt_lu (n : Z) : string := unsigned_decimal (Int.as_uint64 n).

Fixpoint spaces (k : nat) : string :=
  match k with
  | O => EmptyString
  | S k' => String " "%char (spaces k')
  end.

Definition pad_left (width : nat) (s : string) : string :=
  (spaces (width - String.length s) ++ s)%string.

(** The integer nearest to [n / d] for [0 <= n], [0 < d], ties to even. *)
Definition nearest_even (n d : Z) : Z :=
  let q := n / d in
  match 2 * (n mod d) ?= d with
  | Lt => q
  | Eq => if Z.even q then q else q + 1
  | Gt => q + 1
  end.

(** The magnitude of a finite value times [10^p], rounded to an integer. *)
Definition scaled (p : nat) (m : positive) (e : Z) : Z :=
  if 0 <=? e then Zpos m * 2 ^ e * 10 ^ Z.of_nat p
  else nearest_even (Zpos m * 10 ^ Z.of_nat p) (2 ^ (- e)).

Definition sign_prefix (s : bool) : string := if s then "-"%string else EmptyString.

(** [%.<p>f] for [p > 0] applied to a [float] (promoted to [double]
    unchanged): the exact value correctly rounded to [p] decimals. *)
Definition fixed (p : nat) (x : float) : string :=
  let sgn := sign_prefix (Binary32.sign_bit x) in
  match Binary32.decode x with
  | S754_nan => (sgn ++ "nan")%string
  | S754_infinity _ => (sgn ++ "inf")%string
  | S754_zero _ => (sgn ++ "0." ++ digits p 0)%string
  | S754_finite _ m e =>
      let n := scaled p m e in
      (sgn ++ unsigned_decimal (n / 10 ^ Z.of_nat p) ++ "."
           ++ digits p (n mod 10 ^ Z.of_nat p))%string
  end.

(** [%<w>.<p>f] *)
Definition fmt_f (w p : nat) (x : float) : string := pad_left w (fixed p x).

(** Reading a decimal numeral back: the value of a nonempty string of
    digits, [None] for anything else. *)
Definition digit_value (c : ascii) : option Z :=
  let n := Z.of_nat (nat_of_ascii c) in
  if (48 <=? n) && (n <=? 57) then Some (n - 48) else None.

Fixpoint parse_from (acc : Z) (s : string) : option Z :=
  match s with
  | EmptyString => Some acc
  | String c rest =>
      match digit_value c with
      | Some d => parse_from (acc * 10 + d) rest
      | None => None
      end
  end.

Definition decimal_value (s : string) : option Z :=
  match s with
  | EmptyString => None
  | _ => parse_from 0 s
  end.

(** A [printf] call appends the expanded format to the standard output. *)
Definition printf (text : string) : prog unit :=
  fun w => Done tt (World (environ w) (clock_reads w) (stdout w ++ text)).

End Printf.

(** ** The reporter and the benchmark harness *)

Import Printf.

(** [print_result], lines 98-105. *)
Definition print_result (method : string) (num : Z) (result : float) (runtime : Z)
  : prog unit :=
  printf newline ;;;
  printf (method ++ ":" ++ newline) ;;;
  printf (tab ++ "sqrt(" ++ fmt_d num ++ ") = " ++ fmt_f 18 17 result ++ newline) ;;;
  printf (tab ++ "Average runtime = " ++ fmt_lu runtime ++ " nanoseconds." ++ newline).

(** The two locals of a benchmark block; [result] starts unassigned. *)
Record locals : Set := Locals {
  total_runtime_ns : Z;
  result : option float
}.

Section Harness.

(** The readings [Clock::now()] returns, in the order they are taken
    (nanosecond counts). *)
Variable clock : nat -> Z.

Definition now : prog Z :=
  fun w => Done (clock (clock_reads w))
                (World (environ w) (S (clock_reads w)) (stdout w)).

(** One pass through the body of the [for] loop of a block. *)
Definition iteration (strategy : float -> res float) (num : Z) (st : locals)
  : prog locals :=
  time_start <- now ;;
  r <- call (strategy (Binary32.of_int num)) ;;
  time_stop <- now ;;
  d <- int64 (time_stop - time_start) ;;
  total <- int64 (total_runtime_ns st + d) ;;
  ret (Locals total (Some r)).

(** [for (int i = 0; i < test_runs; i++)]: the body runs [n] times. *)
Fixpoint for_loop (n : nat) (body : locals -> prog locals) (st : locals)
  : prog locals :=
  match n with
  | O => ret st
  | S n' => st' <- body st ;; for_loop n' body st'
  end.

(** One benchmark block of [main] (lines 115-128, 131-144, 147-160), as a
    function of the routine it times, its label and the two variables
    [num] and [test_runs] it reads. *)
Definition block (strategy : float -> res float) (label : string)
           (num test_runs : Z) : prog unit :=
  st <- for_loop (Z.to_nat test_runs) (iteration strategy num) (Locals 0 None) ;;
  average <- div64 (total_runtime_ns st) test_runs ;;
  r <- read (result st) ;;
  print_result label num r average.

Variable pow : double -> double -> double.

(** The statements of [main] after the two initialisations. *)
Definition main_body (num test_runs : Z) : prog Z :=
  block (sqrt_1 pow) "math.h pow function" num test_runs ;;;
  block sqrt_2 "cmath sqrt function" num test_runs ;;;
  block sqrt_3 "Newton's Method" num test_runs ;;;
  printf newline ;;;
  ret 0.

(** [main], lines 108-165. *)
Definition main (argc : Z) (argv : list string) : prog Z :=
  let num := 42 in
  let test_runs := 10000 in
  main_body num test_runs.

End Harness.

(** The state a process starts in. *)
Definition start (env : list (string * string)) : world := World env 0 EmptyString.

(** ** Timing: what the harness measures *)

Section Measured.

Variable clock : nat -> Z.

(** The duration of the call bracketed by readings [k] and [k + 1]. *)
Definition duration (k : nat) : Z := clock (S k) - clock k.

(** The durations of [n] consecutive calls, the first one starting at
    reading [k]. *)
Fixpoint measured (k n : nat) : list Z :=
  match n with
  | O => []
  | S n' => duration k :: measured (S (S k)) n'
  end.

(** A clock that never runs backward and whose readings are non-negative
    [int64_t] nanosecond counts. *)
Definition steady : Prop :=
  forall k : nat, 0 <= clock k <= clock (S k) /\ clock k <= Int.int64_max.

End Measured.

Definition sum (ds : list Z) : Z := fold_right Z.add 0 ds.

(** The average a block reports when its first reading is number [k]. *)
Definition average (clock : nat -> Z) (k : nat) (test_runs : Z) : Z :=
  sum (measured clock k (Z.to_nat test_runs)) / test_runs.

(** The text of one report: a blank line, the label line, the equation line
    and the runtime line. *)
Definition report_text (label : string) (input : Z) (r : float) (runtime : Z) : string :=
  (newline
   ++ (label ++ ":" ++ newline)
   ++ (tab ++ "sqrt(" ++ fmt_d input ++ ") = " ++ fmt_f 18 17 r ++ newline)
   ++ (tab ++ "Average runtime = " ++ fmt_lu runtime ++ " nanoseconds." ++ newline))%string.

(** The three averages of a run started with no reading taken. *)
Definition timings (clock : nat -> Z) (test_runs : Z) : Z * Z * Z :=
  let n := Z.to_nat test_runs in
  (average clock 0 test_runs,
   average clock (2 * n) test_runs,
   average clock (2 * n + 2 * n) test_runs).

(** The complete output for given results and averages. *)
Definition output_text (num : Z) (r1 r2 r3 : float) (t : Z * Z * Z) : string :=
  let '(a1, a2, a3) := t in
  (report_text "math.h pow function" num r1 a1
   ++ report_text "cmath sqrt function" num r2 a2
   ++ report_text "Newton's Method" num r3 a3
   ++ newline)%string.

(** A sample clock: 25 ns between readings, then stuck at one second. *)
Definition sample_clock (k : nat) : Z := Z.min (Z.of_nat k * 25) 1000000000.

(** ** Further notions used in Part II *)

(** The pattern of the power of two [2^k], for [-126 <= k <= 127]. *)
Definition power_of_two (k : Z) : float := (k + 127) * 2 ^ 23.

(** The patterns the guard [num < 0] rejects: sign bit set, neither the
    negative zero nor a NaN. *)
Definition below_zero (b : float) : bool := (2 ^ 31 <? b) && (b <=? 0xFF800000).

(** A nonzero finite number that is not subnormal. *)
Definition is_normal (b : float) : bool :=
  negb (Binary32.exponent_field b =? 0) && negb (Binary32.exponent_field b =? 255).

(** Linear arithmetic with quotients and remainders by constants. *)
Ltac div_lia := Z.to_euclidean_division_equations; lia.

(** The even powers of two [4^k] with a normal root, and the check that
    [sqrt_2] and [sqrt_3] return [2^k] on [4^k]. *)
Definition root_exponents : list Z := map (fun i => Z.of_nat i - 63) (seq 0 127).

Definition exact_on (k : Z) : bool :=
  match sqrt_2 (power_of_two (2 * k)), sqrt_3 (power_of_two (2 * k)) with
  | Return a, Return b => (a =? power_of_two k) && (b =? power_of_two k)
  | _, _ => false
  end.

(** The running total of a block stays within [int64_t] over the
    durations [ds], each of which is itself an [int64_t]. *)
Fixpoint totals_fit (t : Z) (ds : list Z) : bool :=
  match ds with
  | [] => true
  | d :: ds' => Int.fits_int64 d && Int.fits_int64 (t + d) && totals_fit (t + d) ds'
  end.

(** A clock that steps back by 3 ns during the first call. *)
Definition backward_clock (k : nat) : Z :=
  match k with
  | 1%nat => 97
  | _ => 100
  end.

(** The values of an [int8_t], and the check that the cast to [float] is
    exact and keeps the sign. *)
Definition int8_values : list Z := map (fun i => Z.of_nat i - 128) (seq 0 256).

Definition cast_exact (n : Z) : bool :=
  match Binary32.value (Binary32.of_int n) with
  | Some q => Qeq_bool q (inject_Z n)
  | None => false
  end
  && Bool.eqb (Binary32.ltb (Binary32.of_int n) zero) (n <? 0).

(* ================================================================== *)
(** * Part II: lemmas and theorems *)

(** ** Strings *)

Lemma append_assoc (a b c : string) : ((a ++ b) ++ c = a ++ (b ++ c))%string.
Proof. induction a as [|ch a IH]; simpl; [reflexivity | now rewrite IH]. Qed.

Lemma length_append (a b : string) :
  String.length (a ++ b) = (String.length a + String.length b)%nat.
Proof. induction a as [|ch a IH]; simpl; [reflexivity | now rewrite IH]. Qed.

Lemma length_digits (k : nat) : forall n, String.length (digits k n) = k.
Proof.
  induction k as [|k IH]; intros n; simpl; [reflexivity|].
  rewrite length_append, IH. simpl. lia.
Qed.

(** ** The storage format *)

(** A 32-bit pattern is its sign bit, its exponent field and its fraction
    field laid side by side. *)
Lemma fields_split (b : float) :
  Int.in_uint32 b ->
  let e := Binary32.exponent_field b in
  let m := Binary32.fraction_field b in
  0 <= e < 256 /\ 0 <= m < 2 ^ 23
  /\ b = Binary32.sign_weight (Binary32.sign_bit b) + e * 2 ^ 23 + m.
Proof.
  intros Hb e m. unfold Int.in_uint32, Int.modulus32 in Hb.
  unfold e, m, Binary32.exponent_field, Binary32.fraction_field,
    Binary32.sign_bit, Binary32.sign_weight.
  change 255 with (Z.ones 8). change (2 ^ 23 - 1) with (Z.ones 23).
  rewrite !Z.land_ones by lia. rewrite Z.shiftr_div_pow2 by lia.
  pose proof (Z.testbit_spec' b 31 ltac:(lia)) as Hbit.
  assert (Hq : b / 2 ^ 23 / 2 ^ 8 = b / 2 ^ 31).
  { rewrite Z.div_div by lia. reflexivity. }
  change (2 ^ 32) with 4294967296 in *.
  change (2 ^ 31) with 2147483648 in *.
  change (2 ^ 23) with 8388608 in *.
  change (2 ^ 8) with 256 in *.
  pose proof (Z.mod_pos_bound (b / 8388608) 256 ltac:(lia)).
  pose proof (Z.mod_pos_bound b 8388608 ltac:(lia)).
  pose proof (Z.div_mod b 8388608 ltac:(lia)).
  pose proof (Z.div_mod (b / 8388608) 256 ltac:(lia)).
  assert (Hs : 0 <= b / 2147483648 < 2).
  { split; [apply Z.div_pos; lia | apply Z.div_lt_upper_bound; lia]. }
  rewrite Z.mod_small in Hbit by lia.
  set (q := b / 8388608) in *. set (r := b mod 8388608) in *.
  set (eq := q mod 256) in *. set (s := b / 2147483648) in *.
  clearbody q r eq s.
  split; [lia|]. split; [lia|].
  destruct (Z.testbit b 31); simpl Z.b2z in Hbit; lia.
Qed.

(** Decoding loses nothing but the payload of a NaN. *)
Lemma encode_decode (b : float) :
  Int.in_uint32 b -> Binary32.is_nan b = false ->
  Binary32.encode (Binary32.decode b) = b.
Proof.
  intros Hb. destruct (fields_split b Hb) as (He & Hm & Hsplit).
  unfold Binary32.is_nan, Binary32.decode.
  set (s := Binary32.sign_bit b) in *.
  set (e := Binary32.exponent_field b) in *.
  set (m := Binary32.fraction_field b) in *.
  clearbody s e m.
  remember (Binary32.sign_weight s) as sw eqn:Hsw.
  change (2 ^ 23) with 8388608 in *.
  destruct (Z.eqb_spec e 0) as [E0|E0].
  - destruct m as [|p|p]; intros _; cbn [Binary32.encode]; try rewrite <- Hsw; try lia.
    change (2 ^ 23) with 8388608.
    destruct (Z.ltb_spec (Z.pos p) 8388608); lia.
  - destruct (Z.eqb_spec e 255) as [E1|E1].
    + destruct (Z.eqb_spec m 0) as [M0|M0]; [|discriminate]. intros _.
      cbn [Binary32.encode]. rewrite <- Hsw. lia.
    + destruct (m + 8388608) as [|p|p] eqn:Hp; try lia. intros _.
      cbn [Binary32.encode]. rewrite <- Hsw. change (2 ^ 23) with 8388608.
      destruct (Z.ltb_spec (Z.pos p) 8388608); lia.
Qed.

(** ** Machine integers and the guard [num < 0] *)

Lemma wrap32_range (x : Z) : Int.in_uint32 (Int.wrap32 x).
Proof. unfold Int.in_uint32, Int.wrap32, Int.modulus32. apply Z.mod_pos_bound. lia. Qed.

Lemma shr32_half (a : Z) : Int.shr32 a 1 = a / 2.
Proof. unfold Int.shr32. rewrite Z.shiftr_div_pow2 by lia. reflexivity. Qed.

(** The last addition of [sqrt_approx] never wraps. *)
Lemma approx_bits_arith (num : float) :
  approx_bits num = ((num - 8388608) mod 2 ^ 32) / 2 + 536870912.
Proof.
  unfold approx_bits, Int.add32. rewrite shr32_half.
  pose proof (wrap32_range (num - Z.shiftl 1 23)) as R.
  unfold Int.sub32. unfold Int.in_uint32, Int.modulus32 in R.
  change (Z.shiftl 1 23) with 8388608 in *. change (Z.shiftl 1 29) with 536870912.
  unfold Int.wrap32 at 1. unfold Int.modulus32.
  rewrite Z.mod_small; [reflexivity|].
  unfold Int.wrap32, Int.modulus32 in *.
  assert (0 <= ((num - 8388608) mod 2 ^ 32) / 2 < 2 ^ 31).
  { split; [apply Z.div_pos; lia|]. apply Z.div_lt_upper_bound; lia. }
  lia.
Qed.

Lemma decode_zero : Binary32.decode zero = S754_zero false.
Proof. reflexivity. Qed.

(** The comparison is false when the operand is not below zero, and also
    when it is unordered. *)
Lemma guard_passes_ge (num : float) :
  Binary32.leb zero num = true -> Binary32.ltb num zero = false.
Proof.
  unfold Binary32.leb, Binary32.ltb. rewrite decode_zero.
  destruct (Binary32.decode num) as [s | s | | s m e];
    try destruct s; cbn; intros H; try reflexivity; discriminate H.
Qed.

Lemma guard_passes_nan (num : float) :
  Binary32.is_nan num = true -> Binary32.ltb num zero = false.
Proof.
  unfold Binary32.is_nan, Binary32.ltb.
  destruct (Binary32.decode num); try discriminate. reflexivity.
Qed.

Lemma sqrt_approx_passed (num : float) :
  Binary32.ltb num zero = false -> sqrt_approx num = Return (approx_bits num).
Proof.
  intros H. unfold sqrt_approx. rewrite H. reflexivity.
Qed.

Lemma sqrt_3_passed (num : float) :
  Binary32.ltb num zero = false ->
  sqrt_3 num = Return (newton_step num (newton_step num (approx_bits num))).
Proof.
  intros H. unfold sqrt_3, sqrt_3_from.
  rewrite H, (sqrt_approx_passed _ H). reflexivity.
Qed.

Lemma f42_of_double : Binary64.to_float d42 = f42 /\ Binary64.of_float f42 = d42.
Proof. split; reflexivity. Qed.

Lemma half_f_of_double :
  Binary64.to_float Binary64.half = half_f /\ Binary64.of_float half_f = Binary64.half.
Proof. split; reflexivity. Qed.

(* ================================================================== *)
(** ** Properties of the routines *)

(** C1.  For a finite float [num >= 0], [sqrt_approx] takes the storage of
    [num] as a [uint32_t], subtracts [1 << 23] (modulo 2^32), shifts right by
    one bit, adds [1 << 29], in this order, and returns the float stored in
    the resulting 32 bits: the returned pattern is
    [((num - 8388608) mod 2^32) / 2 + 536870912]. *)
Theorem sqrt_approx_steps (num : float) :
  Binary32.is_finite num = true ->
  Binary32.leb zero num = true ->
  let i0 := get_i (union_of_f num) in
  let i1 := Int.sub32 i0 (Z.shiftl 1 23) in
  let i2 := Int.shr32 i1 1 in
  let i3 := Int.add32 i2 (Z.shiftl 1 29) in
  sqrt_approx num = Return (get_f (Union i3))
  /\ i1 = (num - 2 ^ 23) mod 2 ^ 32
  /\ i2 = i1 / 2
  /\ i3 = i2 + 2 ^ 29
  /\ Int.in_uint32 i3
  /\ i0 = num
  /\ get_f (Union i3) = i3
  /\ sqrt_approx num = Return (((num - 8388608) mod 4294967296) / 2 + 536870912)
  /\ Binary32.decode (get_f (Union i3))
     = Binary32.decode (((num - 8388608) mod 4294967296) / 2 + 536870912).
Proof.
  intros _ Hge. cbv zeta. simpl get_i. simpl get_f.
  pose proof (approx_bits_arith num) as A. unfold approx_bits in A.
  pose proof (sqrt_approx_passed num (guard_passes_ge _ Hge)) as P.
  unfold approx_bits in P.
  split; [exact P|].
  split; [reflexivity|].
  split; [apply shr32_half|].
  split; [rewrite A, shr32_half; reflexivity|].
  split; [apply wrap32_range|].
  split; [reflexivity|]. split; [reflexivity|].
  split; [rewrite P, A; reflexivity|].
  f_equal. exact A.
Qed.

Lemma sqrt_approx_steps_witness :
  Binary32.is_finite f42 = true /\ Binary32.leb zero f42 = true
  /\ sqrt_approx f42 = Return 0x40D40000.
Proof.
  split; [reflexivity|]. split; [reflexivity|].
  destruct (sqrt_approx_steps f42 eq_refl eq_refl)
    as (_ & _ & _ & _ & _ & _ & _ & H & _).
  exact H.
Defined.

(** Case analysis over a short range of integers. *)
Lemma small_cases (P : Z -> Prop) (lo : Z) (k : nat) :
  (forall i : nat, (i < k)%nat -> P (lo + Z.of_nat i)) ->
  forall n, lo <= n < lo + Z.of_nat k -> P n.
Proof.
  intros H n Hn. replace n with (lo + Z.of_nat (Z.to_nat (n - lo))) by lia.
  apply H. lia.
Qed.

(** The two iterates on every positive [int8_t] input, checked against the
    exact rational update. *)
Lemma newton_on_int8 (n : Z) :
  1 <= n <= 127 ->
  exists (p0 p1 p2 : float) (x0 x1 x2 : Q),
    sqrt_approx (Binary32.of_int n) = Return p0
    /\ newton_step (Binary32.of_int n) p0 = p1
    /\ newton_step (Binary32.of_int n) p1 = p2
    /\ sqrt_3 (Binary32.of_int n) = Return p2
    /\ Binary32.value p0 = Some x0 /\ Binary32.value p1 = Some x1
    /\ Binary32.value p2 = Some x2
    /\ ((x0 + inject_Z n / x0) / 2 - (1 # 1048576) <= x1
        <= (x0 + inject_Z n / x0) / 2 + (1 # 1048576))%Q
    /\ ((x1 + inject_Z n / x1) / 2 - (1 # 1048576) <= x2
        <= (x1 + inject_Z n / x1) / 2 + (1 # 1048576))%Q
    /\ (inject_Z n * (1 - (1 # 100000)) <= x2 * x2
        <= inject_Z n * (1 + (1 # 100000)))%Q.
Proof.
  intros Hn. assert (Hn' : 1 <= n < 1 + Z.of_nat 127) by lia.
  revert n Hn' Hn. refine (small_cases _ 1 127 _). intros i Hi _.
  do 127 (destruct i as [|i]; [
    eexists; eexists; eexists; eexists; eexists; eexists;
    split; [vm_compute; reflexivity|];
    split; [vm_compute; reflexivity|];
    split; [vm_compute; reflexivity|];
    split; [vm_compute; reflexivity|];
    split; [vm_compute; reflexivity|];
    split; [vm_compute; reflexivity|];
    split; [vm_compute; reflexivity|];
    split; [split; vm_compute; discriminate|];
    split; split; vm_compute; discriminate |]).
  lia.
Qed.

(** C2.  For a float [num >= 0], [sqrt_3] passes its own guard, takes
    [x0 = sqrt_approx num] as initial guess and returns the second iterate of
    [x := 0.5 * (x + num / x)], where the quotient and the sum are [float]
    operations and the product with the [double] one half is converted back
    to [float].  The guard is its own: whatever routine supplies the initial
    guess, a negative input is rejected before that routine is consulted,
    and a non-negative one is handed to it.  At 42 the iterates are 6.625,
    0x40CF6F18 and 0x40CF623A, at 2 they are 1.5, 0x3FB55556 and 0x3FB50505,
    and the first iterate lies within 2^-21 of the exact
    [(x0 + num / x0) / 2] in both cases.  On every input from 1 to 127 each
    of the two iterates lies within 2^-20 of the exact rational update of
    the one before, and the square of the result within a hundred
    thousandth of the input. *)
Theorem sqrt_3_two_iterations (num : float) :
  Binary32.leb zero num = true ->
  let update := fun n x : float =>
    Binary64.to_float
      (Binary64.mul Binary64.half
         (Binary64.of_float (Binary32.add x (Binary32.div n x)))) in
  (exists x0 : float,
      sqrt_approx num = Return x0
      /\ x0 = ((num - 8388608) mod 4294967296) / 2 + 536870912
      /\ sqrt_3 num = Return (newton_step num (newton_step num x0))
      /\ sqrt_3 num = Return (update num (update num x0))
      /\ (forall guess : float -> res float,
            sqrt_3_from guess num =
            rbind (guess num) (fun x => Return (update num (update num x))))
      /\ (forall (guess : float -> res float) (neg : float),
            Binary32.ltb neg zero = true ->
            sqrt_3_from guess neg = Throw (invalid_argument negative_input)))
  /\ Binary64.decode Binary64.half = S754_finite false 4503599627370496 (-53)
  /\ (sqrt_approx f42 = Return 0x40D40000
      /\ update f42 0x40D40000 = 0x40CF6F18
      /\ update f42 0x40CF6F18 = 0x40CF623A
      /\ sqrt_3 f42 = Return 0x40CF623A)
  /\ (sqrt_approx 0x40000000 = Return 0x3FC00000
      /\ update 0x40000000 0x3FC00000 = 0x3FB55556
      /\ update 0x40000000 0x3FB55556 = 0x3FB50505
      /\ sqrt_3 0x40000000 = Return 0x3FB50505)
  /\ (exists x0 x1 : Q,
        Binary32.value 0x40D40000 = Some x0 /\ Binary32.value 0x40CF6F18 = Some x1
        /\ (x0 == 53 # 8)%Q
        /\ ((x0 + 42 / x0) / 2 - (1 # 2097152) < x1 < (x0 + 42 / x0) / 2 + (1 # 2097152))%Q)
  /\ (exists x0 x1 : Q,
        Binary32.value 0x3FC00000 = Some x0 /\ Binary32.value 0x3FB55556 = Some x1
        /\ (x0 == 3 # 2)%Q
        /\ ((x0 + 2 / x0) / 2 - (1 # 2097152) < x1 < (x0 + 2 / x0) / 2 + (1 # 2097152))%Q)
  /\ (forall n : Z, 1 <= n <= 127 ->
      exists (p0 p1 p2 : float) (x0 x1 x2 : Q),
        sqrt_approx (Binary32.of_int n) = Return p0
        /\ update (Binary32.of_int n) p0 = p1
        /\ update (Binary32.of_int n) p1 = p2
        /\ sqrt_3 (Binary32.of_int n) = Return p2
        /\ Binary32.value p0 = Some x0 /\ Binary32.value p1 = Some x1
        /\ Binary32.value p2 = Some x2
        /\ ((x0 + inject_Z n / x0) / 2 - (1 # 1048576) <= x1
            <= (x0 + inject_Z n / x0) / 2 + (1 # 1048576))%Q
        /\ ((x1 + inject_Z n / x1) / 2 - (1 # 1048576) <= x2
            <= (x1 + inject_Z n / x1) / 2 + (1 # 1048576))%Q
        /\ (inject_Z n * (1 - (1 # 100000)) <= x2 * x2
            <= inject_Z n * (1 + (1 # 100000)))%Q).
Proof.
  intros Hge. cbv zeta. pose proof (guard_passes_ge _ Hge) as Hlt.
  assert (Hupd : forall n x,
             newton_step n x =
             Binary64.to_float
               (Binary64.mul Binary64.half
                  (Binary64.of_float (Binary32.add x (Binary32.div n x))))).
  { intros n x. unfold newton_step. reflexivity. }
  split.
  { exists (approx_bits num).
    split; [apply sqrt_approx_passed, Hlt|].
    split; [apply approx_bits_arith|].
    split; [apply sqrt_3_passed, Hlt|].
    split; [rewrite <- !Hupd; apply sqrt_3_passed, Hlt|].
    split.
    - intros guess. unfold sqrt_3_from. rewrite Hlt.
      destruct (guess num) as [x|e]; cbn [rbind]; [|reflexivity].
      rewrite !Hupd. reflexivity.
    - intros guess neg Hneg. unfold sqrt_3_from. rewrite Hneg. reflexivity. }
  split; [vm_compute; reflexivity|].
  split.
  { split; [vm_compute; reflexivity|]. split; [vm_compute; reflexivity|].
    split; vm_compute; reflexivity. }
  split.
  { split; [vm_compute; reflexivity|]. split; [vm_compute; reflexivity|].
    split; vm_compute; reflexivity. }
  split.
  { exists (13893632 # 2097152)%Q, (13594392 # 2097152)%Q.
    split; [vm_compute; reflexivity|]. split; [vm_compute; reflexivity|].
    split; [vm_compute; reflexivity|]. split; vm_compute; reflexivity. }
  split.
  { exists (12582912 # 8388608)%Q, (11883862 # 8388608)%Q.
    split; [vm_compute; reflexivity|]. split; [vm_compute; reflexivity|].
    split; [vm_compute; reflexivity|]. split; vm_compute; reflexivity. }
  intros n Hn.
  destruct (newton_on_int8 n Hn) as (p0 & p1 & p2 & x0 & x1 & x2 & H).
  exists p0, p1, p2, x0, x1, x2. rewrite <- !Hupd. exact H.
Qed.

Lemma sqrt_3_two_iterations_witness :
  Binary32.leb zero f42 = true /\ sqrt_3 f42 = Return 0x40CF623A.
Proof.
  split; [reflexivity|].
  destruct (sqrt_3_two_iterations f42 eq_refl) as (_ & _ & (_ & _ & _ & H) & _).
  exact H.
Defined.

(** C5.  [sqrt_2(42.0)] passes the guard and returns what the library's
    [sqrt] returns for [42.0f], bit for bit: the pattern 0x40CF623A. *)
Theorem sqrt_2_delegates_42 :
  sqrt_2 (Binary64.to_float d42) = Return (Libm.sqrtf f42)
  /\ Libm.sqrtf f42 = 0x40CF623A.
Proof. split; reflexivity. Qed.

(** C6.  [sqrt_1(42.0)] returns exactly the value of [powf(42.0f, 0.5f)].
    The routine passes the [double] 42 and the [double] one half to the
    double-precision [pow] and narrows what it gets; the two library
    functions are parameters.  Whenever [pow] is within one unit in the last
    place of the root of 42 there, and [powf] returns the [float] nearest to
    that root, both values are the pattern 0x40CF623A. *)
Theorem sqrt_1_equals_powf_42
        (pow : double -> double -> double) (powf : float -> float -> float)
        (m64 m32 : positive) :
  Binary64.decode (pow d42 Binary64.half) = S754_finite false m64 (-50) ->
  (Zpos m64 - 1) ^ 2 < 42 * 2 ^ 100 < (Zpos m64 + 1) ^ 2 ->
  Int.in_uint32 (powf f42 half_f) ->
  Binary32.decode (powf f42 half_f) = S754_finite false m32 (-21) ->
  (2 * Zpos m32 - 1) ^ 2 < 42 * 2 ^ 44 < (2 * Zpos m32 + 1) ^ 2 ->
  sqrt_1 pow (Binary64.to_float d42) = Return (powf f42 half_f)
  /\ sqrt_1 pow (Binary64.to_float d42) =
     Return (Binary64.to_float (pow d42 Binary64.half))
  /\ powf f42 half_f = 0x40CF623A
  /\ Binary64.to_float d42 = f42
  /\ Binary64.to_float Binary64.half = half_f.
Proof.
  intros Hd Hm64 Hrange Hf Hm32.
  assert (H64 : Zpos m64 = 7296665348608611 \/ Zpos m64 = 7296665348608612).
  { assert (7296665348608611 ^ 2 <= 42 * 2 ^ 100 < 7296665348608612 ^ 2)
      as [Hlo Hhi] by (split; vm_compute; [discriminate | reflexivity]).
    set (K := 42 * 2 ^ 100) in *. clearbody K.
    destruct Hm64 as [Ha Hb].
    assert (Zpos m64 - 1 < 7296665348608612).
    { apply Z.pow_lt_mono_l_iff with (c := 2); lia. }
    assert (7296665348608611 < Zpos m64 + 1).
    { apply Z.pow_lt_mono_l_iff with (c := 2); lia. }
    lia. }
  assert (H32 : Zpos m32 = 13591098).
  { assert (27182196 ^ 2 <= 42 * 2 ^ 44 < 27182197 ^ 2) as [Hlo Hhi]
      by (split; vm_compute; [discriminate | reflexivity]).
    set (K := 42 * 2 ^ 44) in *. clearbody K.
    destruct Hm32 as [Ha Hb].
    assert (2 * Zpos m32 - 1 < 27182197).
    { apply Z.pow_lt_mono_l_iff with (c := 2); lia. }
    assert (27182196 < 2 * Zpos m32 + 1).
    { apply Z.pow_lt_mono_l_iff with (c := 2); lia. }
    lia. }
  assert (Hpowf : powf f42 half_f = 0x40CF623A).
  { rewrite <- (encode_decode (powf f42 half_f) Hrange).
    - rewrite Hf. injection H32 as ->. reflexivity.
    - unfold Binary32.is_nan. rewrite Hf. reflexivity. }
  assert (Hcall : sqrt_1 pow (Binary64.to_float d42)
                  = Return (Binary64.to_float (pow d42 Binary64.half)))
    by reflexivity.
  assert (Hnarrow : Binary64.to_float (pow d42 Binary64.half) = 0x40CF623A).
  { unfold Binary64.to_float. rewrite Hd.
    destruct H64 as [H | H]; injection H as ->; reflexivity. }
  split; [rewrite Hcall, Hnarrow, Hpowf; reflexivity|].
  split; [exact Hcall|].
  split; [exact Hpowf|].
  split; reflexivity.
Qed.

Lemma sqrt_1_equals_powf_42_witness :
  sqrt_1 Sample.pow_rounded f42 = Return (Sample.powf_rounded f42 half_f).
Proof.
  apply (sqrt_1_equals_powf_42 Sample.pow_rounded Sample.powf_rounded
           7296665348608612 13591098);
    [ reflexivity
    | split; vm_compute; reflexivity
    | unfold Int.in_uint32, Int.modulus32; vm_compute; split; [discriminate | reflexivity]
    | reflexivity
    | split; vm_compute; reflexivity ].
Defined.

(** C9.  [sqrt_approx(0.0f)] is not zero.  The subtraction wraps the all-zero
    pattern to 0xFF800000, the shift gives 0x7FC00000 and the addition
    0x9FC00000, which denotes -1.5 * 2^-64, about -8.1e-20.  [sqrt_3(0.0f)]
    in turn returns 0x9EC00000, that is -1.5 * 2^-66: negative and nonzero. *)
Theorem sqrt_approx_zero_is_negative :
  Binary32.encode (S754_zero false) = zero
  /\ Int.sub32 (get_i (union_of_f zero)) (Z.shiftl 1 23) = 0xFF800000
  /\ Int.shr32 0xFF800000 1 = 0x7FC00000
  /\ Int.add32 0x7FC00000 (Z.shiftl 1 29) = 0x9FC00000
  /\ sqrt_approx zero = Return 0x9FC00000
  /\ Binary32.decode 0x9FC00000 = S754_finite true 12582912 (-87)
  /\ Binary32.ltb 0x9FC00000 zero = true
  /\ (exists q : Q, Binary32.value 0x9FC00000 = Some q
                    /\ (- 82 # 10 ^ 21 < q < - 81 # 10 ^ 21)%Q)
  /\ sqrt_3 zero = Return 0x9EC00000
  /\ Binary32.decode 0x9EC00000 = S754_finite true 12582912 (-89)
  /\ Binary32.ltb 0x9EC00000 zero = true.
Proof.
  repeat (split; [reflexivity|]).
  split.
  - eexists. split; [reflexivity|]. split; vm_compute; reflexivity.
  - repeat (split; [reflexivity|]). reflexivity.
Qed.


(* ================================================================== *)
(** ** The harness *)

Lemma fits_int64_nonneg (x : Z) :
  0 <= x <= Int.int64_max -> Int.fits_int64 x = true.
Proof.
  intros [H0 H1]. unfold Int.fits_int64, Int.int64_min.
  apply andb_true_iff. split; apply Z.leb_le; lia.
Qed.

Lemma int64_nonneg (x : Z) (w : world) :
  0 <= x <= Int.int64_max -> int64 x w = Done x w.
Proof. intros H. unfold int64. rewrite (fits_int64_nonneg _ H). reflexivity. Qed.

Lemma print_result_done (label : string) (num : Z) (r : float) (runtime : Z) (w : world) :
  print_result label num r runtime w =
  Done tt (World (environ w) (clock_reads w)
                 (stdout w ++ report_text label num r runtime)).
Proof.
  unfold print_result, report_text, bind, printf. cbn [environ clock_reads stdout].
  rewrite !append_assoc. reflexivity.
Qed.

Section HarnessFacts.

Variable clock : nat -> Z.
Variable strategy : float -> res float.
Variable num : Z.

Lemma iteration_done (v : float) (st : locals) (w : world) :
  strategy (Binary32.of_int num) = Return v ->
  0 <= duration clock (clock_reads w) ->
  0 <= total_runtime_ns st ->
  total_runtime_ns st + duration clock (clock_reads w) <= Int.int64_max ->
  iteration clock strategy num st w =
  Done (Locals (total_runtime_ns st + duration clock (clock_reads w)) (Some v))
       (World (environ w) (S (S (clock_reads w))) (stdout w)).
Proof.
  intros Hv Hd Ht Hsum.
  unfold iteration, bind, now, call. rewrite Hv.
  cbn [environ clock_reads stdout].
  fold (duration clock (clock_reads w)).
  rewrite int64_nonneg by lia. rewrite int64_nonneg by lia.
  reflexivity.
Qed.

(** Each pass overwrites [result]: what it held before is lost. *)
Lemma iteration_overwrites (v : float) (st st' : locals) (w w' : world) :
  strategy (Binary32.of_int num) = Return v ->
  iteration clock strategy num st w = Done st' w' ->
  result st' = Some v.
Proof.
  intros Hv. unfold iteration, bind, now, call. rewrite Hv.
  unfold int64, ret, undefined. cbn [environ clock_reads stdout].
  repeat match goal with
         | |- context [Int.fits_int64 ?x] =>
             destruct (Int.fits_int64 x); [|discriminate]
         end.
  intros H. injection H as <- _. reflexivity.
Qed.

Lemma for_loop_done (v : float) :
  strategy (Binary32.of_int num) = Return v ->
  forall (n : nat) (st : locals) (w : world),
    Forall (fun d => 0 <= d) (measured clock (clock_reads w) n) ->
    0 <= total_runtime_ns st ->
    total_runtime_ns st + sum (measured clock (clock_reads w) n) <= Int.int64_max ->
    for_loop n (iteration clock strategy num) st w =
    Done (Locals (total_runtime_ns st + sum (measured clock (clock_reads w) n))
                 (match n with O => result st | S _ => Some v end))
         (World (environ w) (clock_reads w + 2 * n) (stdout w)).
Proof.
  intros Hv. induction n as [|n IH]; intros st w Hpos Ht Hsum.
  - destruct st as [t r], w as [env k out]. simpl.
    unfold ret. rewrite Z.add_0_r, Nat.add_0_r. reflexivity.
  - simpl in Hpos, Hsum. inversion Hpos as [|d ds Hd Hds]; subst.
    assert (Hrest : 0 <= sum (measured clock (S (S (clock_reads w))) n)).
    { clear - Hds. induction Hds; simpl; lia. }
    simpl for_loop. unfold bind at 1.
    rewrite (iteration_done v) by (assumption || lia).
    rewrite IH; cbn [environ clock_reads stdout total_runtime_ns result];
      try assumption; try lia.
    f_equal.
    + f_equal; [simpl; lia | destruct n; reflexivity].
    + f_equal. lia.
Qed.

Lemma block_done (label : string) (test_runs : Z) (v : float) (w : world) :
  0 < test_runs ->
  strategy (Binary32.of_int num) = Return v ->
  Forall (fun d => 0 <= d) (measured clock (clock_reads w) (Z.to_nat test_runs)) ->
  sum (measured clock (clock_reads w) (Z.to_nat test_runs)) <= Int.int64_max ->
  block clock strategy label num test_runs w =
  print_result label num v (average clock (clock_reads w) test_runs)
    (World (environ w) (clock_reads w + 2 * Z.to_nat test_runs) (stdout w)).
Proof.
  intros HN Hv Hpos Hsum.
  assert (H0 : 0 <= sum (measured clock (clock_reads w) (Z.to_nat test_runs))).
  { clear - Hpos. induction Hpos; simpl; lia. }
  unfold block. unfold bind at 1.
  rewrite (for_loop_done v Hv); cbn [total_runtime_ns result]; try assumption; try lia.
  rewrite Z.add_0_l.
  unfold bind at 1. unfold div64.
  destruct (Z.eqb_spec test_runs 0) as [E|_]; [lia|].
  rewrite Z.quot_div_nonneg by lia.
  rewrite int64_nonneg.
  2:{ split; [apply Z.div_pos; lia|].
      apply Z.le_trans with (2 := Hsum).
      apply Z.div_le_upper_bound; nia. }
  unfold bind at 1. unfold average.
  destruct (Z.to_nat test_runs) eqn:En; [lia|].
  reflexivity.
Qed.

(** An exception thrown by the routine leaves the block at the first
    call: one clock reading has been taken, nothing has been printed. *)
Lemma block_throws (label : string) (test_runs : Z) (e : exception) (w : world) :
  0 < test_runs ->
  strategy (Binary32.of_int num) = Throw e ->
  block clock strategy label num test_runs w =
  Uncaught e (World (environ w) (S (clock_reads w)) (stdout w)).
Proof.
  intros HN He. unfold block.
  destruct (Z.to_nat test_runs) eqn:En; [lia|].
  unfold bind at 1. simpl for_loop. unfold bind at 1.
  unfold iteration, bind, now, call. rewrite He. reflexivity.
Qed.

Lemma steady_measured :
  steady clock ->
  forall n k,
    Forall (fun d => 0 <= d) (measured clock k n)
    /\ sum (measured clock k n) <= clock (k + 2 * n)%nat - clock k.
Proof.
  intros Hs. induction n as [|n IH]; intros k; simpl.
  - split; [constructor|]. rewrite Nat.add_0_r. lia.
  - destruct (IH (S (S k))) as [Hpos Hsum].
    pose proof (Hs k) as [[_ Hk] _]. pose proof (Hs (S k)) as [[_ Hk'] _].
    split.
    + constructor; [unfold duration; lia | exact Hpos].
    + replace (k + S (n + S (n + 0)))%nat with (S (S k) + 2 * n)%nat by lia.
      unfold duration. lia.
Qed.

Lemma steady_block (label : string) (test_runs : Z) (v : float) (w : world) :
  steady clock ->
  0 < test_runs ->
  strategy (Binary32.of_int num) = Return v ->
  block clock strategy label num test_runs w =
  Done tt (World (environ w) (clock_reads w + 2 * Z.to_nat test_runs)
                 (stdout w ++ report_text label num v
                                (average clock (clock_reads w) test_runs))).
Proof.
  intros Hs HN Hv.
  destruct (steady_measured Hs (Z.to_nat test_runs) (clock_reads w)) as [Hpos Hsum].
  rewrite (block_done label test_runs v); try assumption.
  - rewrite print_result_done. reflexivity.
  - pose proof (Hs (clock_reads w)) as [[Hk _] _].
    pose proof (Hs (clock_reads w + 2 * Z.to_nat test_runs)%nat) as [_ Hmax].
    lia.
Qed.

End HarnessFacts.

(* ================================================================== *)
(** ** The whole program *)

Lemma sample_clock_steady : steady sample_clock.
Proof.
  intros k. unfold sample_clock, Int.int64_max.
  rewrite Nat2Z.inj_succ. lia.
Qed.

Lemma main_body_done (clock : nat -> Z) (pow : double -> double -> double)
      (num test_runs : Z) (r1 r2 r3 : float) (env : list (string * string)) :
  steady clock ->
  0 < test_runs ->
  sqrt_1 pow (Binary32.of_int num) = Return r1 ->
  sqrt_2 (Binary32.of_int num) = Return r2 ->
  sqrt_3 (Binary32.of_int num) = Return r3 ->
  main_body clock pow num test_runs (start env) =
  Done 0 (World env (2 * Z.to_nat test_runs + 2 * Z.to_nat test_runs
                     + 2 * Z.to_nat test_runs)
                (output_text num r1 r2 r3 (timings clock test_runs))).
Proof.
  intros Hs HN H1 H2 H3. unfold main_body, output_text, timings.
  unfold bind at 1. rewrite (steady_block clock _ num _ test_runs r1 _ Hs HN H1).
  unfold bind at 1. rewrite (steady_block clock _ num _ test_runs r2 _ Hs HN H2).
  unfold bind at 1. rewrite (steady_block clock _ num _ test_runs r3 _ Hs HN H3).
  unfold bind, printf, ret, start. cbn [environ clock_reads stdout].
  rewrite !append_assoc. reflexivity.
Qed.

Lemma main_body_throws (clock : nat -> Z) (pow : double -> double -> double)
      (num test_runs : Z) (w : world) :
  Binary32.ltb (Binary32.of_int num) zero = true ->
  0 < test_runs ->
  main_body clock pow num test_runs w =
  Uncaught (invalid_argument negative_input)
           (World (environ w) (S (clock_reads w)) (stdout w)).
Proof.
  intros Hneg HN. unfold main_body. unfold bind at 1.
  rewrite (block_throws clock (sqrt_1 pow) num _ test_runs
             (invalid_argument negative_input)); [reflexivity | exact HN |].
  unfold sqrt_1. rewrite Hneg. reflexivity.
Qed.

Lemma fmt_f_finite (x : float) :
  Binary32.is_finite x = true ->
  exists ip fp : string,
    fmt_f 18 17 x = (sign_prefix (Binary32.sign_bit x) ++ ip ++ "." ++ fp)%string
    /\ String.length fp = 17%nat.
Proof.
  unfold Binary32.is_finite, fmt_f, fixed.
  assert (Hpad : forall sgn ip fp, String.length fp = 17%nat ->
            pad_left 18 (sgn ++ ip ++ "." ++ fp) = (sgn ++ ip ++ "." ++ fp)%string).
  { intros sgn ip fp Hfp. unfold pad_left.
    rewrite !length_append, Hfp. simpl String.length.
    replace (18 - _)%nat with 0%nat by lia. reflexivity. }
  destruct (Binary32.decode x) as [s | s | | s m e]; try discriminate; intros _.
  - exists "0"%string, (digits 17 0). split; [|apply length_digits].
    apply (Hpad _ "0"%string), length_digits.
  - eexists _, _. split; [|apply length_digits].
    apply Hpad, length_digits.
Qed.

Lemma fmt_lu_nonneg (n : Z) :
  0 <= n <= Int.int64_max -> fmt_lu n = unsigned_decimal n.
Proof.
  intros H. unfold fmt_lu, Int.as_uint64. unfold Int.int64_max in H.
  rewrite Z.mod_small by lia. reflexivity.
Qed.

(* ================================================================== *)
(** ** Properties of the harness and of the program *)

(** C3.  For a float [num < 0] each of [sqrt_approx], [sqrt_1], [sqrt_2] and
    [sqrt_3] throws [invalid_argument] and returns nothing.  Nothing catches
    it: a block whose routine throws ends with that exception uncaught at its
    first call, and so does the sequence of blocks of [main] when its input
    converts to such a float; nothing has been printed by then. *)
Theorem negative_input_throws (num : float) :
  Binary32.ltb num zero = true ->
  let e := invalid_argument negative_input in
  sqrt_approx num = Throw e
  /\ (forall pow, sqrt_1 pow num = Throw e)
  /\ sqrt_2 num = Throw e
  /\ sqrt_3 num = Throw e
  /\ (forall clock strategy label n test_runs w,
        0 < test_runs ->
        strategy (Binary32.of_int n) = Throw e ->
        block clock strategy label n test_runs w =
        Uncaught e (World (environ w) (S (clock_reads w)) (stdout w)))
  /\ (forall clock pow n test_runs w,
        Binary32.of_int n = num ->
        0 < test_runs ->
        main_body clock pow n test_runs w =
        Uncaught e (World (environ w) (S (clock_reads w)) (stdout w))).
Proof.
  intros Hneg e.
  split; [unfold sqrt_approx; rewrite Hneg; reflexivity|].
  split; [intros pow; unfold sqrt_1; rewrite Hneg; reflexivity|].
  split; [unfold sqrt_2; rewrite Hneg; reflexivity|].
  split; [unfold sqrt_3, sqrt_3_from; rewrite Hneg; reflexivity|].
  split.
  - intros clock strategy label n test_runs w HN He. now apply block_throws.
  - intros clock pow n test_runs w Hn HN. apply main_body_throws; [|exact HN].
    rewrite Hn. exact Hneg.
Qed.

Lemma negative_input_throws_witness :
  Binary32.ltb (Binary32.of_int (-1)) zero = true
  /\ sqrt_approx (Binary32.of_int (-1)) = Throw (invalid_argument negative_input)
  /\ main_body sample_clock (fun x _ => x) (-1) 10000 (start []) =
     Uncaught (invalid_argument negative_input) (World [] 1 EmptyString).
Proof.
  split; [reflexivity|].
  destruct (negative_input_throws (Binary32.of_int (-1)) eq_refl)
    as (Ha & _ & _ & _ & _ & Hm).
  split; [exact Ha|].
  apply (Hm sample_clock (fun x _ => x) (-1) 10000 (start [])); [reflexivity | lia].
Defined.


(** The run of [main]: it ignores its arguments and the environment. *)
Lemma main_done (clock : nat -> Z) (pow : double -> double -> double)
      (argc : Z) (argv : list string) (env : list (string * string)) :
  steady clock ->
  main clock pow argc argv (start env) =
  Done 0 (World env (2 * Z.to_nat 10000 + 2 * Z.to_nat 10000 + 2 * Z.to_nat 10000)
                (output_text 42 (Binary64.to_float (pow d42 Binary64.half))
                             0x40CF623A 0x40CF623A (timings clock 10000))).
Proof.
  intros Hs. unfold main.
  apply main_body_done; [exact Hs | lia | reflexivity | reflexivity | reflexivity].
Qed.


(** C8.  Two runs of the program, whatever their arguments and their
    environments, both complete with exit code 0 when the clock is steady,
    and leave the environment as it was; [main] is the same computation for
    all arguments, with input 42 and 10000 repetitions.  Their outputs are
    the same function of the three measured averages, so they are identical
    as soon as the averages are. *)
Theorem main_ignores_arguments
        (pow : double -> double -> double) (clock1 clock2 : nat -> Z)
        (argc1 argc2 : Z) (argv1 argv2 : list string)
        (env1 env2 : list (string * string)) :
  steady clock1 ->
  steady clock2 ->
  exists w1 w2,
    main clock1 pow argc1 argv1 (start env1) = Done 0 w1
    /\ main clock2 pow argc2 argv2 (start env2) = Done 0 w2
    /\ environ w1 = env1 /\ environ w2 = env2
    /\ (exists r1 r2 r3,
          stdout w1 = output_text 42 r1 r2 r3 (timings clock1 10000)
          /\ stdout w2 = output_text 42 r1 r2 r3 (timings clock2 10000))
    /\ (timings clock1 10000 = timings clock2 10000 -> stdout w1 = stdout w2)
    /\ (forall clock argc argv,
          main clock pow argc argv = main_body clock pow 42 10000).
Proof.
  intros Hs1 Hs2.
  eexists. eexists.
  split; [apply main_done, Hs1|].
  split; [apply main_done, Hs2|].
  cbn [environ stdout].
  split; [reflexivity|]. split; [reflexivity|].
  split; [eexists _, _, _; split; reflexivity|].
  split; [intros ->; reflexivity|].
  reflexivity.
Qed.

Lemma main_ignores_arguments_witness :
  exists w1 w2,
    main sample_clock Sample.pow_rounded 1 ["sqrt"%string] (start []) = Done 0 w1
    /\ main sample_clock Sample.pow_rounded 3
            ["sqrt"; "--runs"; "5"]%string (start [("HOME", "/root")]%string) = Done 0 w2
    /\ stdout w1 = stdout w2.
Proof.
  destruct (main_ignores_arguments Sample.pow_rounded sample_clock sample_clock
              1 3 ["sqrt"%string] ["sqrt"; "--runs"; "5"]%string
              [] [("HOME", "/root")]%string
              sample_clock_steady sample_clock_steady)
    as (w1 & w2 & H1 & H2 & _ & _ & _ & Heq & _).
  exists w1, w2. split; [exact H1|]. split; [exact H2|]. apply Heq. reflexivity.
Defined.

(* ================================================================== *)
(** ** Further properties: the guard *)

(** Decoding a pattern whose exponent field is neither 0 nor 255. *)
Lemma decode_normal (b : float) :
  is_normal b = true ->
  Binary32.decode b =
  S754_finite (Binary32.sign_bit b)
              (Z.to_pos (Binary32.fraction_field b + 2 ^ 23))
              (Binary32.exponent_field b - 150).
Proof.
  unfold is_normal, Binary32.decode. intros H.
  apply andb_true_iff in H. destruct H as [H0 H1].
  apply negb_true_iff in H0, H1. rewrite H0, H1.
  assert (Hm : 0 <= Binary32.fraction_field b).
  { unfold Binary32.fraction_field. apply Z.land_nonneg. right. lia. }
  change (2 ^ 23) with 8388608.
  destruct (Binary32.fraction_field b + 8388608) as [|p|p] eqn:Hp; try lia.
  reflexivity.
Qed.

(** The guard in terms of the pattern. *)
Lemma ltb_zero_pattern (b : float) :
  Int.in_uint32 b -> Binary32.ltb b zero = below_zero b.
Proof.
  intros Hb. destruct (fields_split b Hb) as (He & Hm & Hsplit).
  unfold below_zero, Binary32.ltb. rewrite decode_zero.
  unfold Binary32.decode.
  set (s := Binary32.sign_bit b) in *.
  set (e := Binary32.exponent_field b) in *.
  set (m := Binary32.fraction_field b) in *.
  clearbody s e m.
  change (2 ^ 23) with 8388608 in *. change (2 ^ 31) with 2147483648.
  change 0xFF800000 with 4286578688.
  assert (Hsw : Binary32.sign_weight s = if s then 2147483648 else 0)
    by (destruct s; reflexivity).
  rewrite Hsw in Hsplit. clear Hsw.
  symmetry.
  destruct (Z.eqb_spec e 0) as [E0|E0].
  - destruct m as [|p|p]; try lia; destruct s; cbn [SFltb SFcompare];
      apply andb_true_iff || apply andb_false_iff;
      rewrite ?Z.ltb_lt, ?Z.leb_le, ?Z.ltb_ge, ?Z.leb_gt; lia.
  - destruct (Z.eqb_spec e 255) as [E1|E1].
    + destruct (Z.eqb_spec m 0) as [M0|M0]; destruct s; cbn [SFltb SFcompare];
        apply andb_true_iff || apply andb_false_iff;
        rewrite ?Z.ltb_lt, ?Z.leb_le, ?Z.ltb_ge, ?Z.leb_gt; lia.
    + destruct (m + 8388608) as [|p|p] eqn:Hp; try lia.
      destruct s; cbn [SFltb SFcompare];
        apply andb_true_iff || apply andb_false_iff;
        rewrite ?Z.ltb_lt, ?Z.leb_le, ?Z.ltb_ge, ?Z.leb_gt; lia.
Qed.

(** X1.  Each of the four routines throws exactly on the patterns strictly
    between 0x80000000 and 0xFF800000 inclusive of the latter: the negative
    numbers and minus infinity.  The negative zero, plus infinity and every
    NaN are accepted. *)
Theorem guard_rejects_exactly (pow : double -> double -> double) (num : float) :
  Int.in_uint32 num ->
  let e := invalid_argument negative_input in
  (sqrt_approx num = Throw e <-> 0x80000000 < num <= 0xFF800000)
  /\ (sqrt_1 pow num = Throw e <-> 0x80000000 < num <= 0xFF800000)
  /\ (sqrt_2 num = Throw e <-> 0x80000000 < num <= 0xFF800000)
  /\ (sqrt_3 num = Throw e <-> 0x80000000 < num <= 0xFF800000).
Proof.
  intros Hb e.
  assert (Hg : Binary32.ltb num zero = true <-> 0x80000000 < num <= 0xFF800000).
  { rewrite (ltb_zero_pattern num Hb). unfold below_zero.
    rewrite andb_true_iff, Z.ltb_lt, Z.leb_le. reflexivity. }
  rewrite <- Hg.
  unfold sqrt_approx, sqrt_1, sqrt_2, sqrt_3, sqrt_3_from.
  destruct (Binary32.ltb num zero) eqn:Hlt.
  - repeat split; reflexivity.
  - rewrite (sqrt_approx_passed num Hlt). cbn [rbind].
    repeat split; intros H; discriminate H.
Qed.

Lemma guard_rejects_exactly_witness :
  Int.in_uint32 0x80000000
  /\ (sqrt_approx 0x80000000 = Throw (invalid_argument negative_input)
      <-> 0x80000000 < 0x80000000 <= 0xFF800000).
Proof.
  assert (H : Int.in_uint32 0x80000000) by (unfold Int.in_uint32, Int.modulus32; lia).
  split; [exact H|].
  apply (guard_rejects_exactly (fun x _ => x) 0x80000000 H).
Defined.

(* ================================================================== *)
(** ** Further properties: the range of [sqrt_approx] *)

Lemma exponent_field_arith (r : float) :
  Binary32.exponent_field r = (r / 8388608) mod 256.
Proof.
  unfold Binary32.exponent_field. change 255 with (Z.ones 8).
  rewrite Z.land_ones by lia. rewrite Z.shiftr_div_pow2 by lia. reflexivity.
Qed.

Lemma fraction_field_arith (r : float) :
  Binary32.fraction_field r = r mod 8388608.
Proof.
  unfold Binary32.fraction_field. change (2 ^ 23 - 1) with (Z.ones 23).
  rewrite Z.land_ones by lia. reflexivity.
Qed.

Lemma sign_bit_arith (r : float) :
  Int.in_uint32 r -> Binary32.sign_bit r = (2147483648 <=? r).
Proof.
  unfold Int.in_uint32, Int.modulus32, Binary32.sign_bit. intros Hr.
  pose proof (Z.testbit_spec' r 31 ltac:(lia)) as Hbit.
  change (2 ^ 31) with 2147483648 in Hbit. change (2 ^ 32) with 4294967296 in Hr.
  assert (Hq : 0 <= r / 2147483648 < 2).
  { split; [apply Z.div_pos; lia | apply Z.div_lt_upper_bound; lia]. }
  rewrite Z.mod_small in Hbit by lia.
  pose proof (Z.div_mod r 2147483648 ltac:(lia)) as Hdm.
  pose proof (Z.mod_pos_bound r 2147483648 ltac:(lia)) as Hmb.
  destruct (Z.leb_spec 2147483648 r) as [H|H];
    destruct (Z.testbit r 31); cbn [Z.b2z] in Hbit; try reflexivity; lia.
Qed.

(** The three ranges [approx_bits] maps the accepted patterns to. *)
Lemma approx_bits_ranges (b : float) :
  Int.in_uint32 b ->
  let r := approx_bits b in
  (b < 0x00800000 -> r = (b - 8388608 + 4294967296) / 2 + 536870912
                     /\ 0x9FC00000 <= r <= 0x9FFFFFFF)
  /\ (0x00800000 <= b -> r = (b - 8388608) / 2 + 536870912)
  /\ (0x00800000 <= b <= 0x80000000 -> 0x20000000 <= r <= 0x5FC00000)
  /\ (0xFF800000 < b -> 0x9F800000 <= r <= 0x9FBFFFFF).
Proof.
  intros Hb r. unfold Int.in_uint32, Int.modulus32 in Hb. unfold r.
  rewrite approx_bits_arith.
  change (2 ^ 32) with 4294967296 in *.
  split; [|split; [|split]].
  - intros Hlt.
    replace ((b - 8388608) mod 4294967296) with (b - 8388608 + 4294967296).
    2:{ apply Z.mod_unique with (q := -1); [left|]; lia. }
    split; [reflexivity | div_lia].
  - intros Hge. rewrite Z.mod_small by lia. reflexivity.
  - intros Hge. rewrite Z.mod_small by lia. div_lia.
  - intros Hge. rewrite Z.mod_small by lia. div_lia.
Qed.

(** The accepted patterns fall in three ranges. *)
Lemma accepted_ranges (b : float) :
  Int.in_uint32 b ->
  Binary32.ltb b zero = false ->
  b < 0x00800000 \/ 0x00800000 <= b <= 0x80000000 \/ 0xFF800000 < b.
Proof.
  intros Hb Hlt. rewrite (ltb_zero_pattern b Hb) in Hlt. unfold below_zero in Hlt.
  apply andb_false_iff in Hlt.
  rewrite Z.ltb_ge, Z.leb_gt in Hlt. change (2 ^ 31) with 2147483648 in Hlt.
  lia.
Qed.

(** The result of the bit manipulation always has an exponent field
    between 63 and 191. *)
Lemma approx_bits_normal (b : float) :
  Int.in_uint32 b ->
  Binary32.ltb b zero = false ->
  63 <= Binary32.exponent_field (approx_bits b) <= 191
  /\ is_normal (approx_bits b) = true.
Proof.
  intros Hb Hlt.
  assert (He : 63 <= Binary32.exponent_field (approx_bits b) <= 191).
  { rewrite exponent_field_arith.
    destruct (approx_bits_ranges b Hb) as (R1 & _ & R2 & R3).
    destruct (accepted_ranges b Hb Hlt) as [H | [H | H]].
    - destruct (R1 H) as [_ R]. div_lia.
    - pose proof (R2 H) as R. div_lia.
    - pose proof (R3 H) as R. div_lia. }
  split; [exact He|].
  unfold is_normal. apply andb_true_iff.
  split; apply negb_true_iff, Z.eqb_neq; lia.
Qed.

(** X2.  Whatever accepted 32-bit pattern it is given (zero, subnormal,
    infinity and NaN included), [sqrt_approx] returns a normal number: never
    a zero, a subnormal, an infinity or a NaN.  Its exponent field lies
    between 63 and 191, so its magnitude is at least 2^-64 and below 2^65. *)
Theorem sqrt_approx_returns_normal (b : float) :
  Int.in_uint32 b ->
  Binary32.ltb b zero = false ->
  exists r : float,
    sqrt_approx b = Return r
    /\ Int.in_uint32 r
    /\ 63 <= Binary32.exponent_field r <= 191
    /\ is_normal r = true
    /\ Binary32.is_finite r = true
    /\ Binary32.is_nan r = false
    /\ Binary32.decode r <> S754_zero (Binary32.sign_bit r).
Proof.
  intros Hb Hlt. exists (approx_bits b).
  split; [apply sqrt_approx_passed, Hlt|].
  assert (Hr : Int.in_uint32 (approx_bits b)) by apply wrap32_range.
  split; [exact Hr|].
  destruct (approx_bits_normal b Hb Hlt) as [He Hn].
  split; [exact He|].
  split; [exact Hn|].
  unfold Binary32.is_finite, Binary32.is_nan.
  rewrite (decode_normal _ Hn).
  repeat split. discriminate.
Qed.

Lemma sqrt_approx_returns_normal_witness :
  exists r : float,
    sqrt_approx 0x7F800000 = Return r /\ Binary32.is_finite r = true.
Proof.
  assert (H : Int.in_uint32 0x7F800000) by (unfold Int.in_uint32, Int.modulus32; lia).
  destruct (sqrt_approx_returns_normal 0x7F800000 H eq_refl)
    as (r & Hr & _ & _ & _ & Hf & _).
  exists r. split; [exact Hr | exact Hf].
Defined.

(** X3.  The sign of the result.  [sqrt_approx] returns a negative number
    exactly when the input is +0, a positive subnormal (patterns below
    0x00800000) or a NaN with the sign bit set; for every other accepted
    input (positive normal numbers, -0, plus infinity, positive NaNs) the
    result is positive.  A negative result is in turn rejected by the
    routine itself. *)
Theorem sqrt_approx_sign (b : float) :
  Int.in_uint32 b ->
  Binary32.ltb b zero = false ->
  exists r : float,
    sqrt_approx b = Return r
    /\ Binary32.ltb r zero = (b <? 0x00800000) || (0xFF800000 <? b)
    /\ Binary32.ltb zero r = negb (Binary32.ltb r zero)
    /\ (Binary32.ltb r zero = true ->
        sqrt_approx r = Throw (invalid_argument negative_input)).
Proof.
  intros Hb Hlt. exists (approx_bits b).
  split; [apply sqrt_approx_passed, Hlt|].
  assert (Hr : Int.in_uint32 (approx_bits b)) by apply wrap32_range.
  destruct (approx_bits_normal b Hb Hlt) as [_ Hn].
  assert (Hsign : Binary32.ltb (approx_bits b) zero
                  = (b <? 0x00800000) || (0xFF800000 <? b)).
  { rewrite (ltb_zero_pattern _ Hr). unfold below_zero.
    change (2 ^ 31) with 2147483648.
    destruct (approx_bits_ranges b Hb) as (R1 & _ & R2 & R3).
    destruct (accepted_ranges b Hb Hlt) as [H | [H | H]].
    - destruct (R1 H) as [_ R].
      replace (b <? 0x00800000) with true by (symmetry; apply Z.ltb_lt; lia).
      cbn [orb]. apply andb_true_iff. rewrite Z.ltb_lt, Z.leb_le. lia.
    - pose proof (R2 H) as R.
      replace (b <? 0x00800000) with false by (symmetry; apply Z.ltb_ge; lia).
      replace (0xFF800000 <? b) with false by (symmetry; apply Z.ltb_ge; lia).
      cbn [orb]. apply andb_false_iff. left. apply Z.ltb_ge. lia.
    - pose proof (R3 H) as R.
      replace (0xFF800000 <? b) with true by (symmetry; apply Z.ltb_lt; lia).
      rewrite orb_true_r. apply andb_true_iff. rewrite Z.ltb_lt, Z.leb_le. lia. }
  split; [exact Hsign|].
  split.
  - unfold Binary32.ltb. rewrite decode_zero, (decode_normal _ Hn).
    destruct (Binary32.sign_bit (approx_bits b)); reflexivity.
  - intros Hneg. unfold sqrt_approx. rewrite Hneg. reflexivity.
Qed.

Lemma sqrt_approx_sign_witness :
  exists r : float,
    sqrt_approx 0x00000001 = Return r /\ Binary32.ltb r zero = true.
Proof.
  assert (H : Int.in_uint32 0x00000001) by (unfold Int.in_uint32, Int.modulus32; lia).
  destruct (sqrt_approx_sign 0x00000001 H eq_refl) as (r & Hr & Hs & _).
  exists r. split; [exact Hr | exact Hs].
Defined.

(* ================================================================== *)
(** ** Further properties: the accuracy of [sqrt_approx] *)

Lemma value_positive_normal (b : float) :
  Int.in_uint32 b ->
  is_normal b = true ->
  b < 0x80000000 ->
  Binary32.value b =
  Some (inject_Z (Binary32.fraction_field b + 8388608)
        * Qpower 2 (Binary32.exponent_field b - 150))%Q.
Proof.
  intros Hb Hn Hlt. unfold Binary32.value.
  rewrite (decode_normal b Hn), (sign_bit_arith b Hb).
  replace (2147483648 <=? b) with false by (symmetry; apply Z.leb_gt; lia).
  assert (Hm : 0 <= Binary32.fraction_field b).
  { rewrite fraction_field_arith. apply Z.mod_pos_bound. lia. }
  change (2 ^ 23) with 8388608.
  rewrite Z2Pos.id by lia. reflexivity.
Qed.

(** How the fields of the result relate to the fields of a positive normal
    input: the exponent is halved, the significand is the mean of the
    input's significand and 1 (odd exponent field) or 2 (even exponent
    field), rounded down. *)
Lemma approx_fields (x : float) :
  0x00800000 <= x < 0x7F800000 ->
  let r := approx_bits x in
  let ex := Binary32.exponent_field x - 150 in
  let er := Binary32.exponent_field r - 150 in
  let mx := Binary32.fraction_field x + 8388608 in
  let mr := Binary32.fraction_field r + 8388608 in
  8388608 <= mx < 16777216
  /\ 8388608 <= mr < 16777216
  /\ r < 0x80000000
  /\ ((er + er = ex + (-23) /\ mx + 8388608 - 1 <= 2 * mr <= mx + 8388608)
      \/ (er + er = ex + (-24) /\ mx + 16777216 - 1 <= 2 * mr <= mx + 16777216)).
Proof.
  intros Hx r ex er mx mr.
  assert (Hb : Int.in_uint32 x) by (unfold Int.in_uint32, Int.modulus32; lia).
  destruct (approx_bits_ranges x Hb) as (_ & R & R2 & _).
  specialize (R ltac:(lia)). specialize (R2 ltac:(lia)). fold r in R, R2.
  unfold ex, er, mx, mr.
  rewrite !exponent_field_arith, !fraction_field_arith.
  clearbody r. clear Hb ex er mx mr.
  div_lia.
Qed.

(** Squaring a value [m * 2^e] whose doubled exponent is [e' + c]. *)
Lemma square_scaled (m : Z) (e e' c : Z) :
  e + e = e' + c ->
  ((inject_Z m * Qpower 2 e) * (inject_Z m * Qpower 2 e)
   == (inject_Z (m * m) * Qpower 2 c) * Qpower 2 e')%Q.
Proof.
  intros He.
  assert (H2 : ~ (2 == 0)%Q) by discriminate.
  setoid_replace ((inject_Z m * Qpower 2 e) * (inject_Z m * Qpower 2 e))%Q
    with ((inject_Z m * inject_Z m) * (Qpower 2 e * Qpower 2 e))%Q by ring.
  rewrite <- inject_Z_mult, <- Qpower_plus by exact H2.
  rewrite He, Z.add_comm, Qpower_plus by exact H2. ring.
Qed.

(** X4.  Accuracy on positive normal numbers.  For every positive normal
    finite [x] the result [r] of [sqrt_approx] is positive and its square
    lies between [(1 - 2^-23) * x] and [9/8 * x]: the approximation never
    falls short of the root by more than rounding and exceeds it by at
    most 6.1 percent ([sqrt (9/8)] is about 1.0607). *)
Theorem sqrt_approx_accuracy (x : float) :
  0x00800000 <= x < 0x7F800000 ->
  exists (r : float) (q qr : Q),
    sqrt_approx x = Return r
    /\ Binary32.value x = Some q
    /\ Binary32.value r = Some qr
    /\ (0 < q)%Q /\ (0 < qr)%Q
    /\ ((1 - (1 # 8388608)) * q <= qr * qr)%Q
    /\ (qr * qr <= (9 # 8) * q)%Q.
Proof.
  intros Hx.
  assert (Hb : Int.in_uint32 x) by (unfold Int.in_uint32, Int.modulus32; lia).
  assert (Hlt : Binary32.ltb x zero = false).
  { rewrite (ltb_zero_pattern x Hb). unfold below_zero.
    apply andb_false_iff. left. apply Z.ltb_ge. change (2 ^ 31) with 2147483648. lia. }
  assert (Hnx : is_normal x = true).
  { unfold is_normal. rewrite exponent_field_arith. apply andb_true_iff.
    split; apply negb_true_iff, Z.eqb_neq; div_lia. }
  destruct (approx_bits_normal x Hb Hlt) as [_ Hnr].
  destruct (approx_fields x Hx) as (Hmx & Hmr & Hr & Hcases).
  pose proof (wrap32_range
                (Int.shr32 (Int.sub32 x (Z.shiftl 1 23)) 1 + Z.shiftl 1 29)) as Hrb.
  fold (Int.add32 (Int.shr32 (Int.sub32 x (Z.shiftl 1 23)) 1) (Z.shiftl 1 29)) in Hrb.
  fold (approx_bits x) in Hrb.
  exists (approx_bits x).
  eexists. eexists.
  split; [apply sqrt_approx_passed, Hlt|].
  split; [apply value_positive_normal; [exact Hb | exact Hnx | lia]|].
  split; [apply value_positive_normal; [exact Hrb | exact Hnr | exact Hr]|].
  set (ex := Binary32.exponent_field x - 150) in *.
  set (er := Binary32.exponent_field (approx_bits x) - 150) in *.
  set (mx := Binary32.fraction_field x + 8388608) in *.
  set (mr := Binary32.fraction_field (approx_bits x) + 8388608) in *.
  clearbody ex er mx mr.
  assert (HP : forall e, (0 < Qpower 2 e)%Q) by (intros e; apply Qpower_0_lt; reflexivity).
  assert (Hpos : forall m e, 0 < m -> (0 < inject_Z m * Qpower 2 e)%Q).
  { intros m e Hm. apply Qmult_lt_0_compat; [|apply HP].
    change (inject_Z 0 < inject_Z m)%Q. rewrite <- Zlt_Qlt. exact Hm. }
  split; [apply Hpos; lia|]. split; [apply Hpos; lia|].
  destruct Hcases as [[He Hm] | [He Hm]];
    rewrite (square_scaled mr er ex _ He);
    rewrite !Qmult_assoc;
    (split; (apply Qmult_le_compat_r; [|apply Qlt_le_weak, HP]));
    [ change (Qpower 2 (-23)) with (1 # 8388608)%Q
    | change (Qpower 2 (-23)) with (1 # 8388608)%Q
    | change (Qpower 2 (-24)) with (1 # 16777216)%Q
    | change (Qpower 2 (-24)) with (1 # 16777216)%Q ];
    unfold Qle; cbn [Qnum Qden Qmult Qminus Qplus Qopp inject_Z].
  - assert (0 <= (mx - 8388607) * (mx - 8388607)) by nia.
    nia.
  - assert (0 <= (2 * mx - 8388608) * (16777216 - mx)) by nia.
    nia.
  - nia.
  - assert (0 <= (mx - 8388608) * (33554432 - mx)) by nia.
    nia.
Qed.

Lemma sqrt_approx_accuracy_witness :
  exists (r : float) (q qr : Q),
    sqrt_approx f42 = Return r
    /\ Binary32.value f42 = Some q
    /\ Binary32.value r = Some qr
    /\ (qr * qr <= (9 # 8) * q)%Q.
Proof.
  destruct (sqrt_approx_accuracy f42) as (r & q & qr & H1 & H2 & H3 & _ & _ & _ & H4).
  - vm_compute. split; [discriminate | reflexivity].
  - exists r, q, qr. repeat split; assumption.
Defined.

(* ================================================================== *)
(** ** Further properties: monotonicity and powers of two *)

(** On positive normal numbers the order of the values is the order of the
    patterns. *)
Lemma leb_positive_normal (a b : float) :
  0x00800000 <= a < 0x7F800000 ->
  0x00800000 <= b < 0x7F800000 ->
  Binary32.leb a b = (a <=? b).
Proof.
  intros Ha Hb.
  assert (Ia : Int.in_uint32 a) by (unfold Int.in_uint32, Int.modulus32; lia).
  assert (Ib : Int.in_uint32 b) by (unfold Int.in_uint32, Int.modulus32; lia).
  assert (Na : is_normal a = true).
  { unfold is_normal. rewrite exponent_field_arith. apply andb_true_iff.
    split; apply negb_true_iff, Z.eqb_neq; div_lia. }
  assert (Nb : is_normal b = true).
  { unfold is_normal. rewrite exponent_field_arith. apply andb_true_iff.
    split; apply negb_true_iff, Z.eqb_neq; div_lia. }
  unfold Binary32.leb.
  rewrite (decode_normal a Na), (decode_normal b Nb).
  rewrite (sign_bit_arith a Ia), (sign_bit_arith b Ib).
  replace (2147483648 <=? a) with false by (symmetry; apply Z.leb_gt; lia).
  replace (2147483648 <=? b) with false by (symmetry; apply Z.leb_gt; lia).
  unfold SFleb, SFcompare.
  rewrite !exponent_field_arith, !fraction_field_arith.
  change (2 ^ 23) with 8388608.
  assert (Ma : 0 < a mod 8388608 + 8388608) by div_lia.
  assert (Mb : 0 < b mod 8388608 + 8388608) by div_lia.
  destruct (Z.compare_spec ((a / 8388608) mod 256 - 150) ((b / 8388608) mod 256 - 150))
    as [He | He | He].
  - change (Pos.compare_cont Eq ?p ?q) with (Pos.compare p q).
    rewrite <- Z2Pos.inj_compare by assumption.
    destruct (Z.compare_spec (a mod 8388608 + 8388608) (b mod 8388608 + 8388608))
      as [Hm | Hm | Hm]; symmetry;
      rewrite ?Z.leb_le, ?Z.leb_gt; div_lia.
  - symmetry. apply Z.leb_le. div_lia.
  - symmetry. apply Z.leb_gt. div_lia.
Qed.

(** X5.  [sqrt_approx] is monotone on the positive normal numbers: a larger
    input never gives a smaller approximation. *)
Theorem sqrt_approx_monotone (x y : float) :
  0x00800000 <= x < 0x7F800000 ->
  0x00800000 <= y < 0x7F800000 ->
  Binary32.leb x y = true ->
  exists rx ry : float,
    sqrt_approx x = Return rx
    /\ sqrt_approx y = Return ry
    /\ Binary32.leb rx ry = true.
Proof.
  intros Hx Hy Hle.
  rewrite (leb_positive_normal x y Hx Hy) in Hle. apply Z.leb_le in Hle.
  assert (Ix : Int.in_uint32 x) by (unfold Int.in_uint32, Int.modulus32; lia).
  assert (Iy : Int.in_uint32 y) by (unfold Int.in_uint32, Int.modulus32; lia).
  assert (Gx : Binary32.ltb x zero = false).
  { rewrite (ltb_zero_pattern x Ix). unfold below_zero.
    apply andb_false_iff. left. apply Z.ltb_ge. change (2 ^ 31) with 2147483648. lia. }
  assert (Gy : Binary32.ltb y zero = false).
  { rewrite (ltb_zero_pattern y Iy). unfold below_zero.
    apply andb_false_iff. left. apply Z.ltb_ge. change (2 ^ 31) with 2147483648. lia. }
  exists (approx_bits x), (approx_bits y).
  split; [apply sqrt_approx_passed, Gx|].
  split; [apply sqrt_approx_passed, Gy|].
  destruct (approx_bits_ranges x Ix) as (_ & Rx & _).
  destruct (approx_bits_ranges y Iy) as (_ & Ry & _).
  specialize (Rx ltac:(lia)). specialize (Ry ltac:(lia)).
  rewrite leb_positive_normal; [apply Z.leb_le | |]; rewrite ?Rx, ?Ry; div_lia.
Qed.

Lemma sqrt_approx_monotone_witness :
  exists rx ry : float,
    sqrt_approx f42 = Return rx
    /\ sqrt_approx 0x42290000 = Return ry
    /\ Binary32.leb rx ry = true.
Proof.
  apply (sqrt_approx_monotone f42 0x42290000);
    [vm_compute; split; [discriminate | reflexivity]
    | vm_compute; split; [discriminate | reflexivity]
    | reflexivity].
Defined.

Lemma root_exponents_complete (k : Z) :
  -63 <= k <= 63 -> In k root_exponents.
Proof.
  intros Hk. unfold root_exponents. apply in_map_iff.
  exists (Z.to_nat (k + 63)). split; [lia|]. apply in_seq. lia.
Qed.

Lemma exact_on_all : forallb exact_on root_exponents = true.
Proof. vm_compute. reflexivity. Qed.

(** X6.  Powers of two.  On an even power [4^k] ([-63 <= k <= 63])
    [sqrt_approx], [sqrt_2] and [sqrt_3] all return [2^k] exactly.  On an odd
    power [2 * 4^k] the approximation returns [1.5 * 2^k], whose square is
    exactly [9/8] of the input: the bound of X4 is attained. *)
Theorem sqrt_on_powers_of_two (k : Z) :
  -63 <= k <= 63 ->
  sqrt_approx (power_of_two (2 * k)) = Return (power_of_two k)
  /\ sqrt_2 (power_of_two (2 * k)) = Return (power_of_two k)
  /\ sqrt_3 (power_of_two (2 * k)) = Return (power_of_two k)
  /\ sqrt_approx (power_of_two (2 * k + 1)) = Return (power_of_two k + 2 ^ 22)
  /\ (exists q : Q, Binary32.value (power_of_two k) = Some q /\ (q == Qpower 2 k)%Q)
  /\ (exists q : Q, Binary32.value (power_of_two k + 2 ^ 22) = Some q
                    /\ (q == (3 # 2) * Qpower 2 k)%Q).
Proof.
  intros Hk.
  assert (Hpass : forall j, -126 <= j <= 127 ->
            sqrt_approx (power_of_two j)
            = Return ((power_of_two j - 8388608) / 2 + 536870912)).
  { intros j Hj.
    assert (Ij : Int.in_uint32 (power_of_two j))
      by (unfold Int.in_uint32, Int.modulus32, power_of_two; lia).
    assert (Gj : Binary32.ltb (power_of_two j) zero = false).
    { rewrite (ltb_zero_pattern _ Ij). unfold below_zero, power_of_two.
      apply andb_false_iff. left. apply Z.ltb_ge. lia. }
    rewrite (sqrt_approx_passed _ Gj). f_equal.
    destruct (approx_bits_ranges _ Ij) as (_ & R & _). apply R.
    unfold power_of_two. lia. }
  assert (Hval : forall m, 0 <= m < 8388608 ->
            Binary32.value (power_of_two k + m)
            = Some (inject_Z (m + 8388608) * Qpower 2 (k + 127 - 150))%Q).
  { intros m Hm.
    assert (Ik : Int.in_uint32 (power_of_two k + m))
      by (unfold Int.in_uint32, Int.modulus32, power_of_two; lia).
    assert (He : Binary32.exponent_field (power_of_two k + m) = k + 127)
      by (rewrite exponent_field_arith; unfold power_of_two; div_lia).
    assert (Hf : Binary32.fraction_field (power_of_two k + m) = m)
      by (rewrite fraction_field_arith; unfold power_of_two; div_lia).
    rewrite value_positive_normal; [rewrite He, Hf; reflexivity | exact Ik | |].
    - unfold is_normal. rewrite He. apply andb_true_iff.
      split; apply negb_true_iff, Z.eqb_neq; lia.
    - unfold power_of_two. lia. }
  assert (H2 : ~ (2 == 0)%Q) by discriminate.
  assert (Hpow : (inject_Z 8388608 * Qpower 2 (k + 127 - 150) == Qpower 2 k)%Q).
  { change (inject_Z 8388608) with (Qpower 2 23).
    rewrite <- Qpower_plus by exact H2.
    replace (23 + (k + 127 - 150)) with k by lia. reflexivity. }
  pose proof (proj1 (forallb_forall exact_on root_exponents) exact_on_all k
                    (root_exponents_complete k Hk)) as Hex.
  unfold exact_on in Hex.
  destruct (sqrt_2 (power_of_two (2 * k))) as [a|]; [|discriminate].
  destruct (sqrt_3 (power_of_two (2 * k))) as [b|]; [|discriminate].
  apply andb_true_iff in Hex. destruct Hex as [Ha Hb'].
  apply Z.eqb_eq in Ha, Hb'. subst a b.
  split.
  { rewrite Hpass by lia. f_equal. unfold power_of_two. div_lia. }
  split; [reflexivity|]. split; [reflexivity|].
  split.
  { rewrite Hpass by lia. f_equal. unfold power_of_two. div_lia. }
  split.
  - eexists. split.
    + rewrite <- (Z.add_0_r (power_of_two k)). apply Hval. lia.
    + exact Hpow.
  - eexists. split.
    + apply Hval. lia.
    + setoid_replace (inject_Z (2 ^ 22 + 8388608))
        with ((3 # 2) * inject_Z 8388608)%Q by reflexivity.
      rewrite <- Qmult_assoc, Hpow. reflexivity.
Qed.

Lemma sqrt_on_powers_of_two_witness :
  sqrt_3 (power_of_two 4) = Return (power_of_two 2).
Proof.
  apply (sqrt_on_powers_of_two 2). lia.
Defined.

(* ================================================================== *)
(** ** Further properties: NaN and infinity in [sqrt_3] *)

(** Setting one bit with a bitwise or. *)
Lemma lor_pow2 (b n : Z) :
  0 <= n -> Z.lor b (2 ^ n) = if Z.testbit b n then b else b + 2 ^ n.
Proof.
  intros Hn. destruct (Z.testbit b n) eqn:Hb.
  - apply Z.bits_inj'. intros i Hi.
    rewrite Z.lor_spec, Z.pow2_bits_eqb by lia.
    destruct (Z.eqb_spec n i) as [->|]; [rewrite Hb; reflexivity | apply orb_false_r].
  - assert (Hl : Z.land b (2 ^ n) = 0).
    { apply Z.bits_inj'. intros i Hi.
      rewrite Z.land_spec, Z.pow2_bits_eqb, Z.bits_0 by lia.
      destruct (Z.eqb_spec n i) as [->|]; [rewrite Hb; reflexivity | apply andb_false_r]. }
    rewrite <- Z.lxor_lor by exact Hl. symmetry. apply Z.add_nocarry_lxor. exact Hl.
Qed.

Lemma testbit_arith (b n : Z) :
  0 <= n -> Z.testbit b n = negb (b mod 2 ^ (n + 1) <? 2 ^ n).
Proof.
  intros Hn. pose proof (Z.testbit_spec' b n Hn) as H.
  assert (Hp : 0 < 2 ^ n) by (apply Z.pow_pos_nonneg; lia).
  assert (Hs : 2 ^ (n + 1) = 2 ^ n * 2) by (rewrite Z.pow_add_r by lia; reflexivity).
  rewrite Hs, Z.rem_mul_r by lia.
  pose proof (Z.mod_pos_bound b (2 ^ n) Hp).
  pose proof (Z.mod_pos_bound (b / 2 ^ n) 2 ltac:(lia)).
  destruct (Z.testbit b n); cbn [Z.b2z negb] in *; symmetry;
    [apply negb_true_iff, Z.ltb_ge | apply negb_false_iff, Z.ltb_lt]; nia.
Qed.

(** Making a [float] pattern quiet, arithmetically. *)
Lemma quiet_arith (b : float) :
  Binary32.quiet b = if b mod 8388608 <? 4194304 then b + 4194304 else b.
Proof.
  unfold Binary32.quiet. change 0x00400000 with (2 ^ 22).
  rewrite lor_pow2 by lia. rewrite (testbit_arith b 22) by lia.
  change (2 ^ (22 + 1)) with 8388608. change (2 ^ 22) with 4194304.
  destruct (b mod 8388608 <? 4194304); reflexivity.
Qed.

Lemma quiet64_arith (d : double) :
  Binary64.quiet d =
  if d mod 4503599627370496 <? 2251799813685248 then d + 2251799813685248 else d.
Proof.
  unfold Binary64.quiet. change 0x0008000000000000 with (2 ^ 51).
  rewrite lor_pow2 by lia. rewrite (testbit_arith d 51) by lia.
  change (2 ^ (51 + 1)) with 4503599627370496. change (2 ^ 51) with 2251799813685248.
  destruct (d mod 4503599627370496 <? 2251799813685248); reflexivity.
Qed.

(** A pattern is a NaN exactly when its exponent field is all ones and its
    fraction is not zero. *)
Lemma is_nan_fields (b : float) :
  Binary32.is_nan b = true <->
  (b / 8388608) mod 256 = 255 /\ b mod 8388608 <> 0.
Proof.
  unfold Binary32.is_nan, Binary32.decode.
  rewrite exponent_field_arith, fraction_field_arith.
  pose proof (Z.mod_pos_bound b 8388608 ltac:(lia)) as Hm.
  change (2 ^ 23) with 8388608.
  destruct (Z.eqb_spec ((b / 8388608) mod 256) 0) as [E0|E0].
  - destruct (b mod 8388608); split; try discriminate; lia.
  - destruct (Z.eqb_spec ((b / 8388608) mod 256) 255) as [E1|E1].
    + destruct (Z.eqb_spec (b mod 8388608) 0) as [M0|M0]; split;
        try discriminate; try reflexivity; lia.
    + destruct (b mod 8388608 + 8388608) eqn:Hp; split; try discriminate; lia.
Qed.

Lemma exponent_field64_arith (d : double) :
  Binary64.exponent_field d = (d / 4503599627370496) mod 2048.
Proof.
  unfold Binary64.exponent_field. change 2047 with (Z.ones 11).
  rewrite Z.land_ones by lia. rewrite Z.shiftr_div_pow2 by lia. reflexivity.
Qed.

Lemma fraction_field64_arith (d : double) :
  Binary64.fraction_field d = d mod 4503599627370496.
Proof.
  unfold Binary64.fraction_field. change (2 ^ 52 - 1) with (Z.ones 52).
  rewrite Z.land_ones by lia. reflexivity.
Qed.

Lemma is_nan64_fields (d : double) :
  (d / 4503599627370496) mod 2048 = 2047 ->
  d mod 4503599627370496 <> 0 ->
  Binary64.decode d = S754_nan.
Proof.
  intros He Hm. unfold Binary64.decode.
  rewrite exponent_field64_arith, fraction_field64_arith, He.
  change (2047 =? 0) with false. change (2047 =? 2047) with true. cbv iota.
  destruct (Z.eqb_spec (d mod 4503599627370496) 0) as [E|E]; [contradiction | reflexivity].
Qed.

(** The quieted NaN: still a NaN of 32 bits, with the sign kept, and quiet
    already. *)
Lemma quiet_nan (b : float) :
  Int.in_uint32 b ->
  Binary32.is_nan b = true ->
  Int.in_uint32 (Binary32.quiet b)
  /\ Binary32.is_nan (Binary32.quiet b) = true
  /\ Binary32.quiet (Binary32.quiet b) = Binary32.quiet b.
Proof.
  intros Hb Hnan. apply is_nan_fields in Hnan. destruct Hnan as [He Hm].
  unfold Int.in_uint32, Int.modulus32 in *. change (2 ^ 32) with 4294967296 in *.
  rewrite !quiet_arith.
  destruct (Z.ltb_spec (b mod 8388608) 4194304) as [Hq|Hq].
  - split; [div_lia|]. split.
    + apply is_nan_fields. div_lia.
    + replace ((b + 4194304) mod 8388608 <? 4194304) with false; [reflexivity|].
      symmetry. apply Z.ltb_ge. div_lia.
  - split; [lia|]. split.
    + apply is_nan_fields. split; assumption.
    + replace (b mod 8388608 <? 4194304) with false; [reflexivity|].
      symmetry. apply Z.ltb_ge. lia.
Qed.

(** A [float] NaN and its widening, in terms of the quieted fraction. *)
Lemma widen_nan (b : float) :
  Int.in_uint32 b ->
  Binary32.is_nan b = true ->
  exists f' : Z,
    4194304 <= f' < 8388608
    /\ Binary32.quiet b = Binary32.sign_weight (Binary32.sign_bit b) + 2139095040 + f'
    /\ Binary64.of_float b =
       Binary64.sign_weight (Binary32.sign_bit b) + 9218868437227405312
       + f' * 536870912.
Proof.
  intros Hb Hnan.
  pose proof (proj1 (is_nan_fields b) Hnan) as [He Hm].
  destruct (fields_split b Hb) as (_ & _ & Hsplit).
  rewrite exponent_field_arith, fraction_field_arith in Hsplit.
  change (2 ^ 23) with 8388608 in Hsplit. rewrite He in Hsplit.
  pose proof (Z.mod_pos_bound b 8388608 ltac:(lia)) as Hf.
  set (f := b mod 8388608) in *.
  set (s := Binary32.sign_bit b) in *.
  exists (if f <? 4194304 then f + 4194304 else f).
  split; [destruct (Z.ltb_spec f 4194304); lia|].
  split.
  { rewrite quiet_arith. fold f. destruct (f <? 4194304); lia. }
  assert (Hsw : Binary64.sign_weight s = 0 \/ Binary64.sign_weight s = 9223372036854775808)
    by (destruct s; [right | left]; reflexivity).
  unfold Binary64.of_float. unfold Binary32.is_nan in Hnan.
  destruct (Binary32.decode b); try discriminate.
  rewrite fraction_field_arith. fold f. fold s.
  rewrite Z.shiftl_mul_pow2 by lia. change (2 ^ 29) with 536870912.
  rewrite quiet64_arith.
  change 0x7FF0000000000000 with 9218868437227405312.
  destruct (Z.ltb_spec f 4194304) as [H1|H1].
  - replace ((Binary64.sign_weight s + 9218868437227405312 + f * 536870912)
               mod 4503599627370496 <? 2251799813685248) with true
      by (symmetry; apply Z.ltb_lt; destruct Hsw as [-> | ->]; div_lia).
    lia.
  - replace ((Binary64.sign_weight s + 9218868437227405312 + f * 536870912)
               mod 4503599627370496 <? 2251799813685248) with false
      by (symmetry; apply Z.ltb_ge; destruct Hsw as [-> | ->]; div_lia).
    reflexivity.
Qed.

Lemma widened_nan_fields (s : bool) (f' : Z) :
  4194304 <= f' < 8388608 ->
  let d := Binary64.sign_weight s + 9218868437227405312 + f' * 536870912 in
  Binary64.decode d = S754_nan
  /\ Binary64.fraction_field d = f' * 536870912
  /\ Binary64.sign_bit d = s.
Proof.
  intros Hf' d.
  assert (Hsw : Binary64.sign_weight s = 0 \/ Binary64.sign_weight s = 9223372036854775808)
    by (destruct s; [right | left]; reflexivity).
  assert (Hde : (d / 4503599627370496) mod 2048 = 2047
                /\ d mod 4503599627370496 = f' * 536870912).
  { unfold d. destruct Hsw as [-> | ->]; div_lia. }
  destruct Hde as [Hde Hdf].
  split; [apply is_nan64_fields; lia|].
  split; [rewrite fraction_field64_arith; exact Hdf|].
  unfold Binary64.sign_bit. rewrite (testbit_arith d 63) by lia.
  change (2 ^ (63 + 1)) with 18446744073709551616.
  change (2 ^ 63) with 9223372036854775808.
  unfold d.
  destruct s; cbn [Binary64.sign_weight];
    change (2 ^ 63) with 9223372036854775808;
    [apply negb_true_iff, Z.ltb_ge | apply negb_false_iff, Z.ltb_lt]; div_lia.
Qed.

(** A [float] NaN widens to a [double] NaN. *)
Lemma of_float_nan (b : float) :
  Int.in_uint32 b ->
  Binary32.is_nan b = true ->
  Binary64.is_nan (Binary64.of_float b) = true.
Proof.
  intros Hb Hnan. destruct (widen_nan b Hb Hnan) as (f' & Hf' & _ & Hd).
  destruct (widened_nan_fields (Binary32.sign_bit b) f' Hf') as (Hdn & _).
  unfold Binary64.is_nan. rewrite Hd, Hdn. reflexivity.
Qed.

(** A [float] NaN widened, multiplied by one half and narrowed again is the
    same NaN, made quiet. *)
Lemma nan_through_double (b : float) :
  Int.in_uint32 b ->
  Binary32.is_nan b = true ->
  Binary64.to_float (Binary64.mul Binary64.half (Binary64.of_float b)) = Binary32.quiet b.
Proof.
  intros Hb Hnan. destruct (widen_nan b Hb Hnan) as (f' & Hf' & Hq & Hd).
  destruct (widened_nan_fields (Binary32.sign_bit b) f' Hf') as (Hdn & Hfrac & Hsign).
  rewrite Hd.
  set (d := Binary64.sign_weight (Binary32.sign_bit b) + 9218868437227405312
            + f' * 536870912) in *.
  assert (Hmul : Binary64.mul Binary64.half d = d).
  { unfold Binary64.mul.
    change (Binary64.is_nan Binary64.half) with false. cbv iota.
    unfold Binary64.is_nan. rewrite Hdn.
    rewrite quiet64_arith. rewrite <- fraction_field64_arith, Hfrac.
    replace (f' * 536870912 <? 2251799813685248) with false
      by (symmetry; apply Z.ltb_ge; lia).
    reflexivity. }
  rewrite Hmul. unfold Binary64.to_float. rewrite Hdn, Hfrac, Hsign.
  rewrite Z.shiftr_div_pow2 by lia.
  change (2 ^ 29) with 536870912. rewrite Z.div_mul by lia.
  change 0x7F800000 with 2139095040. rewrite <- Hq.
  apply quiet_nan; assumption.
Qed.

(** One update of [sqrt_3] on a NaN input: the result is that NaN, made
    quiet, whatever ordinary number or whichever copy of it [x] is. *)
Lemma newton_step_nan (num x : float) :
  Int.in_uint32 num ->
  Binary32.is_nan num = true ->
  Binary32.is_nan x = false \/ x = Binary32.quiet num ->
  newton_step num x = Binary32.quiet num.
Proof.
  intros Hb Hnan Hx.
  destruct (quiet_nan num Hb Hnan) as (Hqb & Hqn & Hqq).
  unfold newton_step.
  assert (Hdiv : Binary32.div num x = Binary32.quiet num)
    by (unfold Binary32.div; rewrite Hnan; reflexivity).
  assert (Hadd : Binary32.add x (Binary32.quiet num) = Binary32.quiet num).
  { unfold Binary32.add. destruct Hx as [Hx | ->].
    - rewrite Hx, Hqn. exact Hqq.
    - rewrite Hqn. exact Hqq. }
  rewrite Hdiv, Hadd, (nan_through_double _ Hqb Hqn). exact Hqq.
Qed.


(** C10.  A NaN input is not rejected by any of the four routines: the
    comparison [num < 0] is false for it, no routine throws, and each goes on
    to return a value.  [sqrt_approx] returns the manipulated bits, [sqrt_1]
    what [pow] makes of the widened NaN, [sqrt_2] and [sqrt_3] the input NaN
    itself with its quiet bit set. *)
Theorem nan_is_not_rejected (pow : double -> double -> double) (num : float) :
  Int.in_uint32 num ->
  Binary32.is_nan num = true ->
  Binary32.ltb num zero = false
  /\ (forall e : exception,
        sqrt_approx num <> Throw e /\ sqrt_1 pow num <> Throw e
        /\ sqrt_2 num <> Throw e /\ sqrt_3 num <> Throw e)
  /\ sqrt_approx num = Return (((num - 8388608) mod 4294967296) / 2 + 536870912)
  /\ sqrt_1 pow num =
     Return (Binary64.to_float (pow (Binary64.of_float num) Binary64.half))
  /\ Binary64.is_nan (Binary64.of_float num) = true
  /\ sqrt_2 num = Return (Z.lor num 0x00400000)
  /\ sqrt_3 num = Return (Z.lor num 0x00400000)
  /\ Binary32.is_nan (Z.lor num 0x00400000) = true.
Proof.
  intros Hb Hnan. pose proof (guard_passes_nan _ Hnan) as Hlt.
  destruct (quiet_nan num Hb Hnan) as (Hqb & Hqn & Hqq).
  destruct (approx_bits_normal num Hb Hlt) as [_ Hn].
  assert (Hx0 : Binary32.is_nan (approx_bits num) = false)
    by (unfold Binary32.is_nan; rewrite (decode_normal _ Hn); reflexivity).
  assert (Ha : sqrt_approx num
               = Return (((num - 8388608) mod 4294967296) / 2 + 536870912)).
  { rewrite (sqrt_approx_passed _ Hlt). f_equal. apply approx_bits_arith. }
  assert (H1 : sqrt_1 pow num
               = Return (Binary64.to_float (pow (Binary64.of_float num) Binary64.half)))
    by (unfold sqrt_1; rewrite Hlt; reflexivity).
  assert (H2 : sqrt_2 num = Return (Z.lor num 0x00400000)).
  { unfold sqrt_2. rewrite Hlt. unfold Libm.sqrtf. rewrite Hnan. reflexivity. }
  assert (H3 : sqrt_3 num = Return (Z.lor num 0x00400000)).
  { rewrite (sqrt_3_passed _ Hlt).
    rewrite (newton_step_nan num (approx_bits num) Hb Hnan (or_introl Hx0)).
    rewrite (newton_step_nan num (Binary32.quiet num) Hb Hnan (or_intror eq_refl)).
    reflexivity. }
  split; [exact Hlt|].
  split.
  { intros e. rewrite Ha, H1, H2, H3. repeat split; discriminate. }
  split; [exact Ha|]. split; [exact H1|].
  split; [apply of_float_nan; assumption|].
  split; [exact H2|]. split; [exact H3|]. exact Hqn.
Qed.

Lemma nan_is_not_rejected_witness :
  Binary32.is_nan 0x7FC00001 = true
  /\ sqrt_2 0x7FC00001 = Return 0x7FC00001
  /\ sqrt_3 0x7FC00001 = Return 0x7FC00001.
Proof.
  split; [reflexivity|].
  assert (Hb : Int.in_uint32 0x7FC00001) by (unfold Int.in_uint32, Int.modulus32; lia).
  destruct (nan_is_not_rejected (fun x _ => x) 0x7FC00001 Hb eq_refl)
    as (_ & _ & _ & _ & _ & H2 & H3 & _).
  split; [exact H2 | exact H3].
Defined.

(** X7.  A NaN input comes out of [sqrt_3] as that same NaN with its quiet
    bit set (sign and payload kept), although the initial guess
    [sqrt_approx] computes from it is an ordinary nonzero finite number;
    plus infinity comes out as the default NaN 0xFFC00000, its initial guess
    being the finite 2^64. *)
Theorem sqrt_3_nan_results (num : float) :
  Int.in_uint32 num ->
  Binary32.is_nan num = true ->
  sqrt_3 num = Return (Z.lor num 0x00400000)
  /\ Z.lor num 0x00400000 = (if num mod 8388608 <? 4194304 then num + 4194304 else num)
  /\ Binary32.is_nan (Z.lor num 0x00400000) = true
  /\ Binary32.sign_bit (Z.lor num 0x00400000) = Binary32.sign_bit num
  /\ (exists x0 : float,
        sqrt_approx num = Return x0 /\ Binary32.is_nan x0 = false
        /\ Binary32.is_finite x0 = true)
  /\ sqrt_approx 0x7F800000 = Return (power_of_two 64)
  /\ sqrt_3 0x7F800000 = Return 0xFFC00000
  /\ Binary32.is_nan 0xFFC00000 = true.
Proof.
  intros Hb Hnan. pose proof (guard_passes_nan _ Hnan) as Hlt.
  destruct (quiet_nan num Hb Hnan) as (Hqb & Hqn & Hqq).
  destruct (approx_bits_normal num Hb Hlt) as [_ Hn].
  assert (Hx0 : Binary32.is_nan (approx_bits num) = false)
    by (unfold Binary32.is_nan; rewrite (decode_normal _ Hn); reflexivity).
  split.
  { rewrite (sqrt_3_passed _ Hlt).
    rewrite (newton_step_nan num (approx_bits num) Hb Hnan (or_introl Hx0)).
    rewrite (newton_step_nan num (Binary32.quiet num) Hb Hnan (or_intror eq_refl)).
    reflexivity. }
  split; [apply quiet_arith|].
  split; [exact Hqn|].
  split.
  { fold (Binary32.quiet num). rewrite !sign_bit_arith by assumption.
    rewrite quiet_arith.
    pose proof (proj1 (is_nan_fields num) Hnan) as [He Hm].
    unfold Int.in_uint32, Int.modulus32 in Hb. change (2 ^ 32) with 4294967296 in Hb.
    destruct (Z.ltb_spec (num mod 8388608) 4194304);
      destruct (Z.leb_spec 2147483648 num); [| |reflexivity|reflexivity];
      [apply Z.leb_le | apply Z.leb_gt]; div_lia. }
  split.
  { exists (approx_bits num). split; [apply sqrt_approx_passed, Hlt|].
    split; [exact Hx0|].
    unfold Binary32.is_finite. rewrite (decode_normal _ Hn). reflexivity. }
  split; [vm_compute; reflexivity|]. split; vm_compute; reflexivity.
Qed.

Lemma sqrt_3_nan_results_witness :
  sqrt_3 0xFFC00000 = Return 0xFFC00000.
Proof.
  apply (sqrt_3_nan_results 0xFFC00000);
    [unfold Int.in_uint32, Int.modulus32; lia | reflexivity].
Defined.


(* ================================================================== *)
(** ** Further properties: the harness outside its usual conditions *)

(** X8.  A block is only defined for a positive repetition count.  With
    [test_runs = 0] it divides by zero; with a negative count the loop body
    never runs and the unassigned [result] is printed.  Either way the
    behaviour is undefined, whatever the routine and the clock. *)
Theorem block_needs_positive_count
        (clock : nat -> Z) (strategy : float -> res float) (label : string)
        (num test_runs : Z) (w : world) :
  test_runs <= 0 ->
  block clock strategy label num test_runs w = Undefined.
Proof.
  intros HN. unfold block.
  replace (Z.to_nat test_runs) with 0%nat by lia.
  unfold bind at 1. cbn [for_loop ret total_runtime_ns result].
  unfold bind at 1. unfold div64.
  destruct (Z.eqb_spec test_runs 0) as [E|E]; [reflexivity|].
  rewrite Z.quot_0_l by exact E.
  reflexivity.
Qed.

Lemma block_needs_positive_count_witness :
  block sample_clock sqrt_2 "cmath sqrt function" 42 0 (start []) = Undefined
  /\ block sample_clock sqrt_2 "cmath sqrt function" 42 (-5) (start []) = Undefined.
Proof.
  split; apply block_needs_positive_count; lia.
Defined.

Lemma quot_fits (a b : Z) :
  Int.fits_int64 a = true -> 0 < b -> Int.fits_int64 (Z.quot a b) = true.
Proof.
  unfold Int.fits_int64, Int.int64_min, Int.int64_max.
  rewrite !andb_true_iff, !Z.leb_le. intros [Hlo Hhi] Hb.
  destruct (Z.le_gt_cases 0 a) as [Ha | Ha].
  - rewrite Z.quot_div_nonneg by lia.
    pose proof (Z.div_pos a b Ha Hb).
    assert (a / b <= a) by (apply Z.div_le_upper_bound; nia).
    lia.
  - replace a with (- (- a)) by lia. rewrite Z.quot_opp_l by lia.
    rewrite Z.quot_div_nonneg by lia.
    pose proof (Z.div_pos (- a) b ltac:(lia) Hb).
    assert (- a / b <= - a) by (apply Z.div_le_upper_bound; nia).
    lia.
Qed.

Lemma int64_fits (x : Z) (w : world) :
  Int.fits_int64 x = true -> int64 x w = Done x w.
Proof. intros H. unfold int64. rewrite H. reflexivity. Qed.

Lemma int64_overflow (x : Z) (w : world) :
  Int.fits_int64 x = false -> int64 x w = Undefined.
Proof. intros H. unfold int64. rewrite H. reflexivity. Qed.

Section HarnessAnyClock.

Variable clock : nat -> Z.
Variable strategy : float -> res float.
Variable num : Z.
Variable v : float.
Hypothesis strategy_returns : strategy (Binary32.of_int num) = Return v.

Lemma iteration_fits (st : locals) (w : world) :
  Int.fits_int64 (duration clock (clock_reads w)) = true ->
  Int.fits_int64 (total_runtime_ns st + duration clock (clock_reads w)) = true ->
  iteration clock strategy num st w =
  Done (Locals (total_runtime_ns st + duration clock (clock_reads w)) (Some v))
       (World (environ w) (S (S (clock_reads w))) (stdout w)).
Proof.
  intros Hd Ht.
  unfold iteration, bind, now, call. rewrite strategy_returns.
  cbn [environ clock_reads stdout].
  fold (duration clock (clock_reads w)).
  rewrite (int64_fits _ _ Hd). rewrite (int64_fits _ _ Ht). reflexivity.
Qed.

Lemma for_loop_fits :
  forall (n : nat) (st : locals) (w : world),
    totals_fit (total_runtime_ns st) (measured clock (clock_reads w) n) = true ->
    for_loop n (iteration clock strategy num) st w =
    Done (Locals (total_runtime_ns st + sum (measured clock (clock_reads w) n))
                 (match n with O => result st | S _ => Some v end))
         (World (environ w) (clock_reads w + 2 * n) (stdout w)).
Proof.
  induction n as [|n IH]; intros st w Hfit.
  - destruct st as [t r], w as [env k out]. simpl.
    unfold ret. rewrite Z.add_0_r, Nat.add_0_r. reflexivity.
  - simpl in Hfit. apply andb_true_iff in Hfit. destruct Hfit as [Hfit Hrest].
    apply andb_true_iff in Hfit. destruct Hfit as [Hd Ht].
    simpl for_loop. unfold bind at 1.
    rewrite (iteration_fits st w Hd Ht).
    rewrite IH; cbn [environ clock_reads stdout total_runtime_ns result];
      [|exact Hrest].
    f_equal.
    + f_equal; [simpl; lia | destruct n; reflexivity].
    + f_equal. lia.
Qed.

Lemma totals_fit_final (ds : list Z) :
  forall t, Int.fits_int64 t = true -> totals_fit t ds = true ->
            Int.fits_int64 (t + sum ds) = true.
Proof.
  induction ds as [|d ds IH]; intros t Ht Hfit; simpl.
  - rewrite Z.add_0_r. exact Ht.
  - simpl in Hfit. apply andb_true_iff in Hfit. destruct Hfit as [Hfit Hrest].
    apply andb_true_iff in Hfit. destruct Hfit as [_ Htd].
    rewrite Z.add_assoc. apply IH; assumption.
Qed.

Lemma block_fits (label : string) (test_runs : Z) (w : world) :
  0 < test_runs ->
  totals_fit 0 (measured clock (clock_reads w) (Z.to_nat test_runs)) = true ->
  block clock strategy label num test_runs w =
  Done tt (World (environ w) (clock_reads w + 2 * Z.to_nat test_runs)
                 (stdout w ++ report_text label num v
                    (Z.quot (sum (measured clock (clock_reads w) (Z.to_nat test_runs)))
                            test_runs))).
Proof.
  intros HN Hfit.
  pose proof (totals_fit_final _ 0 eq_refl Hfit) as Hsum. rewrite Z.add_0_l in Hsum.
  unfold block. unfold bind at 1.
  rewrite for_loop_fits by exact Hfit.
  cbn [total_runtime_ns result]. rewrite Z.add_0_l.
  unfold bind at 1. unfold div64.
  destruct (Z.eqb_spec test_runs 0) as [E|_]; [lia|].
  rewrite (int64_fits _ _ (quot_fits _ _ Hsum HN)).
  unfold bind at 1.
  destruct (Z.to_nat test_runs) eqn:En; [lia|].
  cbn [read ret]. rewrite print_result_done. reflexivity.
Qed.

(** Whatever the clock, a block whose routine returns ends normally with
    one report appended, or in undefined behaviour; never by exception. *)
Lemma for_loop_outcome :
  forall (n : nat) (st : locals) (w : world),
    for_loop n (iteration clock strategy num) st w = Undefined
    \/ exists t : Z,
        for_loop n (iteration clock strategy num) st w =
        Done (Locals t (match n with O => result st | S _ => Some v end))
             (World (environ w) (clock_reads w + 2 * n) (stdout w)).
Proof.
  induction n as [|n IH]; intros st w.
  - right. exists (total_runtime_ns st).
    destruct st as [t r], w as [env k out]. simpl. unfold ret.
    rewrite Nat.add_0_r. reflexivity.
  - assert (E : for_loop (S n) (iteration clock strategy num) st w =
               match iteration clock strategy num st w with
               | Done a w' => for_loop n (iteration clock strategy num) a w'
               | Uncaught e w' => Uncaught e w'
               | Undefined => Undefined
               end) by reflexivity.
    rewrite E. clear E.
    destruct (Int.fits_int64 (duration clock (clock_reads w))) eqn:Hd.
    2:{ left. unfold iteration, bind, now, call. rewrite strategy_returns.
        cbn [environ clock_reads stdout]. fold (duration clock (clock_reads w)).
        rewrite (int64_overflow _ _ Hd). reflexivity. }
    destruct (Int.fits_int64 (total_runtime_ns st + duration clock (clock_reads w)))
      eqn:Ht.
    2:{ left. unfold iteration, bind, now, call. rewrite strategy_returns.
        cbn [environ clock_reads stdout]. fold (duration clock (clock_reads w)).
        rewrite (int64_fits _ _ Hd). rewrite (int64_overflow _ _ Ht). reflexivity. }
    rewrite (iteration_fits st w Hd Ht).
    match goal with
    | |- context [for_loop n _ ?s ?w'] => destruct (IH s w') as [HU | [t HD]]
    end.
    + left. exact HU.
    + right. exists t. rewrite HD.
      cbn [environ clock_reads stdout result].
      f_equal; [destruct n; reflexivity | f_equal; lia].
Qed.

Lemma block_outcome (label : string) (test_runs : Z) (w : world) :
  0 < test_runs ->
  block clock strategy label num test_runs w = Undefined
  \/ exists a : Z,
      block clock strategy label num test_runs w =
      Done tt (World (environ w) (clock_reads w + 2 * Z.to_nat test_runs)
                     (stdout w ++ report_text label num v a)).
Proof.
  intros HN. unfold block, bind.
  destruct (for_loop_outcome (Z.to_nat test_runs) (Locals 0 None) w) as [HU | [t HD]].
  - left. rewrite HU. reflexivity.
  - rewrite HD. cbn [total_runtime_ns result].
    unfold div64.
    destruct (Z.eqb_spec test_runs 0) as [E|_]; [lia|].
    destruct (Int.fits_int64 (Z.quot t test_runs)) eqn:Hq;
      [rewrite (int64_fits _ _ Hq) | rewrite (int64_overflow _ _ Hq); left; reflexivity].
    destruct (Z.to_nat test_runs) eqn:En; [lia|].
    cbn [read ret]. right. exists (Z.quot t test_runs).
    fold (@bind unit unit). 
    apply print_result_done.
Qed.

End HarnessAnyClock.

(** X9.  The average with durations of any sign.  Let a block run with
    [test_runs = N > 0] and let its [N] measured durations [ds], negative
    ones included, keep the running total within [int64_t].  The block then
    completes, having read the clock [2 * N] times, and reports the quotient
    of the total by [N] truncated toward zero: the remainder has the sign of
    the total.  When the total is negative and not a multiple of [N] this is
    one more than the rounded-down quotient, and a negative average is
    printed by [%lu] as that average plus 2^64. *)
Theorem harness_truncates_average
        (clock : nat -> Z) (strategy : float -> res float) (label : string)
        (num N : Z) (ds : list Z) (v : float) (w : world) :
  0 < N ->
  measured clock (clock_reads w) (Z.to_nat N) = ds ->
  totals_fit 0 ds = true ->
  strategy (Binary32.of_int num) = Return v ->
  let q := Z.quot (sum ds) N in
  block clock strategy label num N w =
  Done tt (World (environ w) (clock_reads w + 2 * Z.to_nat N)
                 (stdout w ++ report_text label num v q))
  /\ sum ds = N * q + Z.rem (sum ds) N
  /\ Z.abs (Z.rem (sum ds) N) < N
  /\ 0 <= Z.rem (sum ds) N * sum ds
  /\ (sum ds < 0 -> Z.rem (sum ds) N <> 0 -> q = sum ds / N + 1)
  /\ (q < 0 -> fmt_lu q = unsigned_decimal (2 ^ 64 + q)).
Proof.
  intros HN Hds Hfit Hv q. subst ds.
  pose proof (totals_fit_final _ 0 eq_refl Hfit) as Hsum. rewrite Z.add_0_l in Hsum.
  set (s := sum (measured clock (clock_reads w) (Z.to_nat N))) in *.
  split; [apply (block_fits clock strategy num v Hv label N w HN Hfit)|].
  assert (Hqr : s = N * q + Z.rem s N) by (apply Z.quot_rem'; lia).
  assert (Habs : Z.abs (Z.rem s N) < N).
  { pose proof (Z.rem_bound_abs s N ltac:(lia)). lia. }
  assert (Hsgn : 0 <= Z.rem s N * s) by (apply Z.rem_sign_mul; lia).
  split; [exact Hqr|]. split; [exact Habs|]. split; [exact Hsgn|].
  split.
  - intros Hneg Hrem.
    assert (Hr : Z.rem s N < 0) by nia.
    assert (Hd : q - 1 = s / N)
      by (apply Z.div_unique with (r := Z.rem s N + N); [left; lia | lia]).
    lia.
  - intros Hq.
    assert (Hfq : Int.fits_int64 q = true) by (apply quot_fits; assumption).
    unfold Int.fits_int64, Int.int64_min, Int.int64_max in Hfq.
    apply andb_true_iff in Hfq. rewrite !Z.leb_le in Hfq.
    unfold fmt_lu, Int.as_uint64. f_equal.
    symmetry. apply Z.mod_unique with (q := -1); [left; lia | lia].
Qed.

Lemma harness_truncates_average_witness :
  block backward_clock sqrt_2 "cmath sqrt function" 42 2 (start []) =
  Done tt (World [] 4 (report_text "cmath sqrt function" 42 0x40CF623A (-1)))
  /\ fmt_lu (-1) = "18446744073709551615"%string
  /\ (-3) / 2 = -2.
Proof.
  split; [|split; reflexivity].
  apply (harness_truncates_average backward_clock sqrt_2 "cmath sqrt function"
           42 2 [-3; 0] 0x40CF623A (start []));
    [lia | reflexivity | reflexivity | reflexivity].
Defined.

(** X10.  [main] cannot end with an uncaught exception, whatever the clock,
    the library's [pow], the arguments and the environment: its input 42 is
    accepted by all three routines.  Either a running total overflows
    (undefined behaviour) or [main] returns 0 after exactly 60000 clock
    readings, having printed three reports for 42 and a blank line, with the
    environment untouched. *)
Theorem main_never_throws
        (clock : nat -> Z) (pow : double -> double -> double)
        (argc : Z) (argv : list string) (env : list (string * string)) :
  (forall e w, main clock pow argc argv (start env) <> Uncaught e w)
  /\ (main clock pow argc argv (start env) = Undefined
      \/ exists a1 a2 a3 : Z,
          main clock pow argc argv (start env) =
          Done 0 (World env (6 * Z.to_nat 10000)
                        (output_text 42 (Binary64.to_float (pow d42 Binary64.half))
                                     0x40CF623A 0x40CF623A (a1, a2, a3)))).
Proof.
  assert (H : main clock pow argc argv (start env) = Undefined
      \/ exists a1 a2 a3 : Z,
          main clock pow argc argv (start env) =
          Done 0 (World env (6 * Z.to_nat 10000)
                        (output_text 42 (Binary64.to_float (pow d42 Binary64.half))
                                     0x40CF623A 0x40CF623A (a1, a2, a3)))).
  { unfold main, main_body.
    assert (HN : 0 < 10000) by lia.
    set (N := 10000) in *. clearbody N.
    unfold bind.
    destruct (block_outcome clock (sqrt_1 pow) 42 _ eq_refl
                "math.h pow function" N (start env) HN) as [U1 | [a1 D1]];
      [left; rewrite U1; reflexivity | rewrite D1; cbv beta iota].
    match goal with
    | |- context [block clock sqrt_2 _ _ _ ?w1] =>
        destruct (block_outcome clock sqrt_2 42 _ eq_refl
                    "cmath sqrt function" N w1 HN) as [U2 | [a2 D2]];
          [left; rewrite U2; reflexivity | rewrite D2; cbv beta iota]
    end.
    match goal with
    | |- context [block clock sqrt_3 _ _ _ ?w2] =>
        destruct (block_outcome clock sqrt_3 42 _ eq_refl
                    "Newton's Method" N w2 HN) as [U3 | [a3 D3]];
          [left; rewrite U3; reflexivity | rewrite D3; cbv beta iota]
    end.
    right. exists a1, a2, a3.
    unfold printf, ret, start, output_text.
    cbn [environ clock_reads stdout].
    rewrite !append_assoc. f_equal. f_equal. lia. }
  split; [|exact H].
  intros e w Hu. destruct H as [H | (a1 & a2 & a3 & H)]; rewrite H in Hu; discriminate Hu.
Qed.

(* ================================================================== *)
(** ** Further properties: signed zeros and the cast of the input *)

(** Signed zeros.  Both zeros pass the guard of every routine.
    [sqrt_2] returns the zero it was given, but [sqrt_approx] and [sqrt_3]
    do not return a zero for either: for +0 they return the negative numbers
    [-1.5 * 2^-64] and [-1.5 * 2^-66], for -0 the huge [1.5 * 2^64] and
    [1.5 * 2^62]. *)
Lemma signed_zeros :
  let pz := Binary32.encode (S754_zero false) in
  let nz := Binary32.encode (S754_zero true) in
  sqrt_2 pz = Return pz /\ sqrt_2 nz = Return nz
  /\ sqrt_approx pz = Return (2 ^ 31 + power_of_two (-64) + 2 ^ 22)
  /\ sqrt_3 pz = Return (2 ^ 31 + power_of_two (-66) + 2 ^ 22)
  /\ sqrt_approx nz = Return (power_of_two 64 + 2 ^ 22)
  /\ sqrt_3 nz = Return (power_of_two 62 + 2 ^ 22)
  /\ Binary32.decode (power_of_two 62 + 2 ^ 22) = S754_finite false 12582912 39.
Proof. repeat split; reflexivity. Qed.

Lemma int8_values_complete (n : Z) :
  -128 <= n <= 127 -> In n int8_values.
Proof.
  intros Hn. unfold int8_values. apply in_map_iff.
  exists (Z.to_nat (n + 128)). split; [lia|]. apply in_seq. lia.
Qed.

Lemma cast_exact_all : forallb cast_exact int8_values = true.
Proof. vm_compute. reflexivity. Qed.

Lemma cast_sign (n : Z) :
  -128 <= n <= 127 -> Binary32.ltb (Binary32.of_int n) zero = (n <? 0).
Proof.
  intros Hn.
  pose proof (proj1 (forallb_forall cast_exact int8_values) cast_exact_all n
                    (int8_values_complete n Hn)) as H.
  unfold cast_exact in H. apply andb_true_iff in H. destruct H as [_ H].
  apply Bool.eqb_prop in H. exact H.
Qed.

(** X11.  The cast [(float)num] of an [int8_t] is exact: the float denotes
    the integer itself, and it compares below zero exactly when the integer
    is negative. *)
Theorem cast_of_int8_exact (n : Z) :
  -128 <= n <= 127 ->
  (exists q : Q, Binary32.value (Binary32.of_int n) = Some q /\ (q == inject_Z n)%Q)
  /\ Binary32.ltb (Binary32.of_int n) zero = (n <? 0).
Proof.
  intros Hn. split; [|apply cast_sign, Hn].
  pose proof (proj1 (forallb_forall cast_exact int8_values) cast_exact_all n
                    (int8_values_complete n Hn)) as H.
  unfold cast_exact in H. apply andb_true_iff in H. destruct H as [H _].
  destruct (Binary32.value (Binary32.of_int n)) as [q|]; [|discriminate].
  exists q. split; [reflexivity|]. apply Qeq_bool_iff. exact H.
Qed.

Lemma cast_of_int8_exact_witness :
  Binary32.ltb (Binary32.of_int (-128)) zero = true.
Proof.
  apply (cast_of_int8_exact (-128)). lia.
Defined.

(** X12.  Which inputs make the program abort.  For an [int8_t] input and
    a positive repetition count the blocks of [main] end with an uncaught
    exception exactly when the input is negative: then it is
    [invalid_argument], raised by the first call after a single clock
    reading, with nothing printed.  A non-negative input never leads to an
    exception, whatever the clock. *)
Theorem main_body_throws_iff_negative
        (clock : nat -> Z) (pow : double -> double -> double)
        (num test_runs : Z) (w : world) :
  -128 <= num <= 127 ->
  0 < test_runs ->
  (num < 0 ->
   main_body clock pow num test_runs w =
   Uncaught (invalid_argument negative_input)
            (World (environ w) (S (clock_reads w)) (stdout w)))
  /\ (0 <= num ->
      forall e w', main_body clock pow num test_runs w <> Uncaught e w').
Proof.
  intros Hn HN. pose proof (cast_sign num Hn) as Hc.
  split.
  - intros Hneg. apply main_body_throws; [|exact HN].
    rewrite Hc. apply Z.ltb_lt. exact Hneg.
  - intros Hpos e w'.
    assert (Hlt : Binary32.ltb (Binary32.of_int num) zero = false)
      by (rewrite Hc; apply Z.ltb_ge; exact Hpos).
    assert (H1 : sqrt_1 pow (Binary32.of_int num) =
                 Return (Binary64.to_float
                           (pow (Binary64.of_float (Binary32.of_int num)) Binary64.half)))
      by (unfold sqrt_1; rewrite Hlt; reflexivity).
    assert (H2 : sqrt_2 (Binary32.of_int num) = Return (Libm.sqrtf (Binary32.of_int num)))
      by (unfold sqrt_2; rewrite Hlt; reflexivity).
    pose proof (sqrt_3_passed _ Hlt) as H3.
    unfold main_body, bind.
    destruct (block_outcome clock (sqrt_1 pow) num _ H1
                "math.h pow function" test_runs w HN) as [U1 | [a1 D1]];
      [rewrite U1; discriminate | rewrite D1; cbv beta iota].
    match goal with
    | |- context [block clock sqrt_2 _ _ _ ?w1] =>
        destruct (block_outcome clock sqrt_2 num _ H2
                    "cmath sqrt function" test_runs w1 HN) as [U2 | [a2 D2]];
          [rewrite U2; discriminate | rewrite D2; cbv beta iota]
    end.
    match goal with
    | |- context [block clock sqrt_3 _ _ _ ?w2] =>
        destruct (block_outcome clock sqrt_3 num _ H3
                    "Newton's Method" test_runs w2 HN) as [U3 | [a3 D3]];
          [rewrite U3; discriminate | rewrite D3; cbv beta iota]
    end.
    unfold printf, ret. discriminate.
Qed.

Lemma main_body_throws_iff_negative_witness :
  main_body sample_clock Sample.pow_rounded (-128) 3 (start []) =
  Uncaught (invalid_argument negative_input) (World [] 1 EmptyString).
Proof.
  apply (main_body_throws_iff_negative sample_clock Sample.pow_rounded (-128) 3 (start []));
    lia.
Defined.

(* ================================================================== *)
(** ** Printed numbers read back *)

Lemma digit_value_digit (d : Z) : 0 <= d < 10 -> digit_value (digit d) = Some d.
Proof.
  intros H.
  assert (C : d = 0 \/ d = 1 \/ d = 2 \/ d = 3 \/ d = 4 \/ d = 5 \/ d = 6
              \/ d = 7 \/ d = 8 \/ d = 9) by lia.
  repeat (destruct C as [-> | C]; [reflexivity|]). subst d. reflexivity.
Qed.

Lemma parse_from_app (a b : string) :
  forall acc,
    parse_from acc (a ++ b) =
    match parse_from acc a with
    | Some v => parse_from v b
    | None => None
    end.
Proof.
  induction a as [|c a IH]; intros acc; cbn [append parse_from]; [reflexivity|].
  destruct (digit_value c); [apply IH | reflexivity].
Qed.

(** [digits k n] reads back as [n] modulo [10^k]. *)
Lemma parse_digits (k : nat) :
  forall n acc,
    parse_from acc (digits k n) = Some (acc * 10 ^ Z.of_nat k + n mod 10 ^ Z.of_nat k).
Proof.
  induction k as [|k IH]; intros n acc.
  - cbn [digits parse_from Z.of_nat]. rewrite Z.pow_0_r, Z.mod_1_r. f_equal. lia.
  - cbn [digits]. rewrite parse_from_app, IH. cbn [parse_from].
    rewrite digit_value_digit by (apply Z.mod_pos_bound; lia).
    f_equal. rewrite Nat2Z.inj_succ, Z.pow_succ_r by lia.
    assert (Hp : 0 < 10 ^ Z.of_nat k) by (apply Z.pow_pos_nonneg; lia).
    rewrite (Z.rem_mul_r n 10 (10 ^ Z.of_nat k)) by lia. ring.
Qed.

Lemma strip_zeros_value (k : nat) :
  forall s, parse_from 0 (strip_zeros k s) = parse_from 0 s.
Proof.
  induction k as [|k IH]; intros s; [reflexivity|].
  destruct s as [|c rest]; [reflexivity|].
  destruct c as [[] [] [] [] [] [] [] []]; try reflexivity.
  simpl. apply IH.
Qed.

Lemma strip_zeros_length (k : nat) :
  forall s, (String.length s - k <= String.length (strip_zeros k s))%nat.
Proof.
  induction k as [|k IH]; intros s; [simpl; lia|].
  destruct s as [|c rest]; [simpl; lia|].
  destruct c as [[] [] [] [] [] [] [] []]; try (simpl; lia).
  simpl. specialize (IH rest). lia.
Qed.

(** The decimal numeral printed for [n >= 0] reads back as [n]. *)
Lemma unsigned_decimal_value (n : Z) :
  0 <= n -> decimal_value (unsigned_decimal n) = Some n.
Proof.
  intros Hn. unfold unsigned_decimal.
  set (k := S (Z.to_nat (Z.log2 n))).
  pose proof (strip_zeros_length (pred k) (digits k n)) as Hlen.
  rewrite length_digits in Hlen.
  assert (Hv : parse_from 0 (strip_zeros (pred k) (digits k n)) = Some n).
  { rewrite strip_zeros_value, parse_digits. f_equal.
    rewrite Z.mul_0_l, Z.add_0_l. apply Z.mod_small. split; [exact Hn|].
    unfold k. rewrite Nat2Z.inj_succ, Z2Nat.id by apply Z.log2_nonneg.
    destruct (Z.eq_dec n 0) as [-> | Hnz]; [reflexivity|].
    pose proof (Z.log2_spec n ltac:(lia)) as [_ Hlt].
    apply Z.lt_le_trans with (1 := Hlt).
    apply Z.pow_le_mono_l. pose proof (Z.log2_nonneg n). lia. }
  destruct (strip_zeros (pred k) (digits k n)) as [|c rest] eqn:E.
  - subst k. cbn [pred String.length] in Hlen. lia.
  - exact Hv.
Qed.

(** [%lu] prints the 64 bits of its argument read as unsigned. *)
Lemma fmt_lu_value (q : Z) : decimal_value (fmt_lu q) = Some (q mod 2 ^ 64).
Proof.
  unfold fmt_lu, Int.as_uint64. apply unsigned_decimal_value.
  apply Z.mod_pos_bound. lia.
Qed.

Lemma nearest_even_spec (n d : Z) :
  0 <= n -> 0 < d ->
  0 <= nearest_even n d /\ Z.abs (2 * (nearest_even n d * d - n)) <= d.
Proof.
  intros Hn Hd. unfold nearest_even.
  pose proof (Z.div_mod n d ltac:(lia)) as Hdm.
  pose proof (Z.mod_pos_bound n d Hd) as Hr.
  pose proof (Z.div_pos n d Hn Hd) as Hq.
  set (q := n / d) in *. set (r := n mod d) in *.
  assert (E0 : q * d - n = - r) by lia.
  assert (E1 : (q + 1) * d - n = d - r) by lia.
  destruct (Z.compare_spec (2 * r) d) as [H | H | H].
  - destruct (Z.even q); [rewrite E0 | rewrite E1]; split; lia.
  - rewrite E0. split; lia.
  - rewrite E1. split; lia.
Qed.

(** [%18.17f] on a finite nonzero number: an optional sign, the integer
    digits, a point and 17 digits, which together spell the integer [n]
    nearest to the magnitude times 10^17. *)
Lemma fmt_f_digits (x : float) (s : bool) (m : positive) (e : Z) :
  Binary32.decode x = S754_finite s m e ->
  exists n : Z,
    0 <= n
    /\ (0 <= e -> n = Zpos m * 2 ^ e * 10 ^ 17)
    /\ (e < 0 -> Z.abs (2 * (n * 2 ^ (- e) - Zpos m * 10 ^ 17)) <= 2 ^ (- e))
    /\ fmt_f 18 17 x =
       (sign_prefix (Binary32.sign_bit x) ++ unsigned_decimal (n / 10 ^ 17)
        ++ "." ++ digits 17 (n mod 10 ^ 17))%string
    /\ decimal_value (unsigned_decimal (n / 10 ^ 17)) = Some (n / 10 ^ 17)
    /\ parse_from 0 (digits 17 (n mod 10 ^ 17)) = Some (n mod 10 ^ 17)
    /\ String.length (digits 17 (n mod 10 ^ 17)) = 17%nat.
Proof.
  intros Hdec. exists (scaled 17 m e).
  assert (Hp : 0 < 10 ^ 17) by lia.
  assert (Hn : 0 <= scaled 17 m e
               /\ (0 <= e -> scaled 17 m e = Zpos m * 2 ^ e * 10 ^ 17)
               /\ (e < 0 -> Z.abs (2 * (scaled 17 m e * 2 ^ (- e) - Zpos m * 10 ^ 17))
                            <= 2 ^ (- e))).
  { unfold scaled. change (10 ^ Z.of_nat 17) with (10 ^ 17).
    destruct (Z.leb_spec 0 e) as [He | He].
    - split; [|split; [reflexivity | lia]].
      pose proof (Z.pow_nonneg 2 e ltac:(lia)). nia.
    - assert (Hd : 0 < 2 ^ (- e)) by (apply Z.pow_pos_nonneg; lia).
      destruct (nearest_even_spec (Zpos m * 10 ^ 17) (2 ^ (- e)) ltac:(lia) Hd)
        as [H0 H1].
      split; [exact H0|]. split; [lia | intros _; exact H1]. }
  destruct Hn as (Hn0 & Hn1 & Hn2).
  split; [exact Hn0|]. split; [exact Hn1|]. split; [exact Hn2|].
  split.
  { unfold fmt_f, fixed. rewrite Hdec. change (10 ^ Z.of_nat 17) with (10 ^ 17).
    unfold pad_left. rewrite !length_append, length_digits.
    simpl String.length.
    replace (18 - _)%nat with 0%nat by lia. reflexivity. }
  split.
  { apply unsigned_decimal_value. apply Z.div_pos; lia. }
  split.
  { rewrite parse_digits. change (10 ^ Z.of_nat 17) with (10 ^ 17).
    rewrite Z.mod_mod by lia. reflexivity. }
  apply length_digits.
Qed.

(** One report, character by character. *)
Lemma report_text_explicit (label : string) (num : Z) (r : float) (a : Z) :
  report_text label num r a =
  (String (ascii_of_nat 10) EmptyString ++ label ++ ":"
   ++ String (ascii_of_nat 10) EmptyString
   ++ String (ascii_of_nat 9) EmptyString ++ "sqrt(" ++ fmt_d num ++ ") = "
   ++ fmt_f 18 17 r ++ String (ascii_of_nat 10) EmptyString
   ++ String (ascii_of_nat 9) EmptyString ++ "Average runtime = " ++ fmt_lu a
   ++ " nanoseconds." ++ String (ascii_of_nat 10) EmptyString)%string.
Proof.
  unfold report_text, newline, tab.
  change (ascii_of_nat 10) with "010"%char. change (ascii_of_nat 9) with "009"%char.
  rewrite !append_assoc. reflexivity.
Qed.

Lemma report_text_42 (label : string) (r : float) (a : Z) :
  report_text label 42 r a =
  (String (ascii_of_nat 10) EmptyString ++ label ++ ":"
   ++ String (ascii_of_nat 10) EmptyString
   ++ String (ascii_of_nat 9) EmptyString ++ "sqrt(42) = "
   ++ fmt_f 18 17 r ++ String (ascii_of_nat 10) EmptyString
   ++ String (ascii_of_nat 9) EmptyString ++ "Average runtime = " ++ fmt_lu a
   ++ " nanoseconds." ++ String (ascii_of_nat 10) EmptyString)%string.
Proof.
  rewrite report_text_explicit.
  change (fmt_d 42) with "42"%string. reflexivity.
Qed.

Lemma measured_length (clock : nat -> Z) :
  forall n k, List.length (measured clock k n) = n.
Proof.
  induction n as [|n IH]; intros k; simpl; [reflexivity | now rewrite IH].
Qed.

(** Whatever the clock, [main] ends in undefined behaviour or returns 0
    with three reports and a blank line printed. *)
Lemma main_outcome (clock : nat -> Z) (pow : double -> double -> double)
      (argc : Z) (argv : list string) (env : list (string * string)) :
  main clock pow argc argv (start env) = Undefined
  \/ exists a1 a2 a3 : Z,
      main clock pow argc argv (start env) =
      Done 0 (World env (6 * Z.to_nat 10000)
                    (output_text 42 (Binary64.to_float (pow d42 Binary64.half))
                                 0x40CF623A 0x40CF623A (a1, a2, a3))).
Proof.
  unfold main, main_body.
  assert (HN : 0 < 10000) by lia.
  set (N := 10000) in *. clearbody N.
  unfold bind.
  destruct (block_outcome clock (sqrt_1 pow) 42 _ eq_refl
              "math.h pow function" N (start env) HN) as [U1 | [a1 D1]];
    [left; rewrite U1; reflexivity | rewrite D1; cbv beta iota].
  match goal with
  | |- context [block clock sqrt_2 _ _ _ ?w1] =>
      destruct (block_outcome clock sqrt_2 42 _ eq_refl
                  "cmath sqrt function" N w1 HN) as [U2 | [a2 D2]];
        [left; rewrite U2; reflexivity | rewrite D2; cbv beta iota]
  end.
  match goal with
  | |- context [block clock sqrt_3 _ _ _ ?w2] =>
      destruct (block_outcome clock sqrt_3 42 _ eq_refl
                  "Newton's Method" N w2 HN) as [U3 | [a3 D3]];
        [left; rewrite U3; reflexivity | rewrite D3; cbv beta iota]
  end.
  right. exists a1, a2, a3.
  unfold printf, ret, start, output_text.
  cbn [environ clock_reads stdout].
  rewrite !append_assoc. f_equal. f_equal. lia.
Qed.

(* ================================================================== *)
(** ** The reported average and the printed text *)

(** C4, where the rounding-down reading fails.  The clock steps back by
    3 ns during the first of two calls, so the two measured durations are
    -3 and 0 and their 64-bit total is -3.  Rounded down, -3 / 2 is -2; the
    block reports -1, the quotient truncated toward zero, which [%lu] prints
    as 18446744073709551615. *)
Lemma harness_floor_counterexample :
  measured backward_clock (clock_reads (start [])) (Z.to_nat 2) = [-3; 0]
  /\ totals_fit 0 [-3; 0] = true
  /\ sum [-3; 0] = -3
  /\ sum [-3; 0] / 2 = -2
  /\ block backward_clock sqrt_2 "cmath sqrt function" 42 2 (start []) =
     Done tt (World [] 4 (report_text "cmath sqrt function" 42 0x40CF623A (-1)))
  /\ block backward_clock sqrt_2 "cmath sqrt function" 42 2 (start []) <>
     Done tt (World [] 4 (report_text "cmath sqrt function" 42 0x40CF623A
                            (sum [-3; 0] / 2)))
  /\ fmt_lu (-1) = "18446744073709551615"%string
  /\ fmt_lu (sum [-3; 0] / 2) = "18446744073709551614"%string.
Proof.
  split; [reflexivity|]. split; [reflexivity|]. split; [reflexivity|].
  split; [reflexivity|].
  split.
  { apply (block_fits backward_clock sqrt_2 42 0x40CF623A eq_refl
             "cmath sqrt function" 2 (start [])); [lia | reflexivity]. }
  split.
  { rewrite (block_fits backward_clock sqrt_2 42 0x40CF623A eq_refl
               "cmath sqrt function" 2 (start [])) by (lia || reflexivity).
    vm_compute. intros H. discriminate H. }
  split; vm_compute; reflexivity.
Qed.

(** C4, amended.  Let a block run with [test_runs = N > 0] and let [ds] be
    the [N] durations it measures, of any sign, the running total staying
    within [int64_t].  The block completes and prints one report:  a line
    feed, the label and a colon, the line [sqrt(<num>) = <result>] behind a
    tab, and the runtime line behind a tab.  The runtime is the quotient of
    the total by [N] truncated toward zero (the remainder has the sign of
    the total), printed by [%lu] as a numeral that reads back as that
    quotient modulo 2^64.  When the total is not negative this is the total
    divided by [N] rounded down, and the numeral reads back as exactly that.
    The result shown is the value the routine returned; every pass of the
    loop overwrites [result], whatever it held.  For [N = 1] the average is
    the single duration. *)
Theorem harness_reports_average
        (clock : nat -> Z) (strategy : float -> res float) (label : string)
        (num N : Z) (ds : list Z) (v : float) (w : world) :
  0 < N ->
  measured clock (clock_reads w) (Z.to_nat N) = ds ->
  totals_fit 0 ds = true ->
  strategy (Binary32.of_int num) = Return v ->
  let q := Z.quot (sum ds) N in
  let nl := String (ascii_of_nat 10) EmptyString in
  let tb := String (ascii_of_nat 9) EmptyString in
  Z.of_nat (List.length ds) = N
  /\ block clock strategy label num N w =
     Done tt (World (environ w) (clock_reads w + 2 * Z.to_nat N)
                (stdout w
                 ++ (nl ++ label ++ ":" ++ nl
                     ++ tb ++ "sqrt(" ++ fmt_d num ++ ") = " ++ fmt_f 18 17 v ++ nl
                     ++ tb ++ "Average runtime = " ++ fmt_lu q ++ " nanoseconds."
                     ++ nl)))
  /\ decimal_value (fmt_lu q) = Some (q mod 2 ^ 64)
  /\ sum ds = N * q + Z.rem (sum ds) N
  /\ Z.abs (Z.rem (sum ds) N) < N
  /\ 0 <= Z.rem (sum ds) N * sum ds
  /\ (0 <= sum ds ->
      q = sum ds / N
      /\ N * q <= sum ds < N * (q + 1)
      /\ decimal_value (fmt_lu q) = Some q)
  /\ (forall st st' w0 w1,
        iteration clock strategy num st w0 = Done st' w1 -> result st' = Some v)
  /\ (N = 1 -> ds = [duration clock (clock_reads w)]
               /\ q = duration clock (clock_reads w)).
Proof.
  intros HN Hds Hfit Hv. cbv zeta.
  pose proof (totals_fit_final _ 0 eq_refl Hfit) as Hsum. rewrite Z.add_0_l in Hsum.
  split.
  { subst ds. rewrite measured_length. lia. }
  split.
  { subst ds.
    rewrite (block_fits clock strategy num v Hv label N w HN Hfit).
    rewrite report_text_explicit. reflexivity. }
  split; [apply fmt_lu_value|].
  split; [apply Z.quot_rem'; lia|].
  split; [pose proof (Z.rem_bound_abs (sum ds) N ltac:(lia)); lia|].
  split; [apply Z.rem_sign_mul; lia|].
  split.
  { intros H0.
    assert (Hq : Z.quot (sum ds) N = sum ds / N) by (apply Z.quot_div_nonneg; lia).
    split; [exact Hq|]. rewrite Hq.
    pose proof (Z.mul_div_le (sum ds) N HN).
    pose proof (Z.mul_succ_div_gt (sum ds) N HN).
    split; [lia|].
    rewrite fmt_lu_value. f_equal. apply Z.mod_small.
    pose proof (Z.div_pos (sum ds) N H0 HN).
    unfold Int.fits_int64, Int.int64_min, Int.int64_max in Hsum.
    apply andb_true_iff in Hsum. rewrite !Z.leb_le in Hsum.
    assert (sum ds / N <= sum ds) by (apply Z.div_le_upper_bound; nia).
    lia. }
  split.
  { intros st st' w0 w1. now apply iteration_overwrites. }
  intros ->. simpl in Hds. subst ds. split; [reflexivity|].
  simpl. rewrite Z.add_0_r. apply Z.quot_1_r.
Qed.

Lemma harness_reports_average_witness :
  block sample_clock sqrt_2 "cmath sqrt function" 42 2 (start []) =
  Done tt (World [] 4
             (String (ascii_of_nat 10) EmptyString ++ "cmath sqrt function:"
              ++ String (ascii_of_nat 10) EmptyString
              ++ String (ascii_of_nat 9) EmptyString
              ++ "sqrt(42) = 6.48074054718017578"
              ++ String (ascii_of_nat 10) EmptyString
              ++ String (ascii_of_nat 9) EmptyString
              ++ "Average runtime = 25 nanoseconds."
              ++ String (ascii_of_nat 10) EmptyString))
  /\ decimal_value (fmt_lu 25) = Some 25.
Proof.
  destruct (harness_reports_average sample_clock sqrt_2 "cmath sqrt function"
              42 2 [25; 25] 0x40CF623A (start []))
    as (_ & Hrun & _ & _ & _ & _ & Hfloor & _);
    [lia | reflexivity | reflexivity | reflexivity |].
  split.
  - rewrite Hrun. vm_compute. reflexivity.
  - destruct Hfloor as (_ & _ & Hread); [vm_compute; discriminate|]. exact Hread.
Defined.

(** C7.  With a steady clock the program completes and its standard output
    is exactly three reports, for the power function, for the square-root
    primitive and for the approximation with Newton's method, in this order,
    followed by one line feed.  Each report is a line feed (the blank line),
    the label and a colon on a line, a tab and [sqrt(42) = <result>] on a
    line, and a tab and [Average runtime = <n> nanoseconds.] on a line.  The
    result field is [%18.17f]: for a finite nonzero result an optional sign,
    the integer digits, a point and exactly 17 digits, which together spell
    the integer nearest to the magnitude times 10^17; the last two reports
    show 6.48074054718017578.  Each average is a numeral that reads back as
    the average itself, which is not negative.  With a clock that is not
    steady the program either runs into undefined behaviour or prints text
    of the same form. *)
Theorem main_output (clock : nat -> Z) (pow : double -> double -> double)
        (argc : Z) (argv : list string) (env : list (string * string)) :
  steady clock ->
  let nl := String (ascii_of_nat 10) EmptyString in
  let tb := String (ascii_of_nat 9) EmptyString in
  let report := fun (label : string) (r : float) (a : Z) =>
    (nl ++ label ++ ":" ++ nl
     ++ tb ++ "sqrt(42) = " ++ fmt_f 18 17 r ++ nl
     ++ tb ++ "Average runtime = " ++ fmt_lu a ++ " nanoseconds." ++ nl)%string in
  let r1 := Binary64.to_float (pow d42 Binary64.half) in
  let n := Z.to_nat 10000 in
  let a1 := average clock 0 10000 in
  let a2 := average clock (2 * n) 10000 in
  let a3 := average clock (2 * n + 2 * n) 10000 in
  (exists w',
      main clock pow argc argv (start env) = Done 0 w'
      /\ stdout w' =
         (report "math.h pow function" r1 a1
          ++ report "cmath sqrt function" 0x40CF623A a2
          ++ report "Newton's Method" 0x40CF623A a3
          ++ nl)%string)
  /\ fmt_f 18 17 0x40CF623A = "6.48074054718017578"%string
  /\ (forall (r : float) (s : bool) (m : positive) (e : Z),
        Binary32.decode r = S754_finite s m e ->
        exists k : Z,
          0 <= k
          /\ (0 <= e -> k = Zpos m * 2 ^ e * 10 ^ 17)
          /\ (e < 0 -> Z.abs (2 * (k * 2 ^ (- e) - Zpos m * 10 ^ 17)) <= 2 ^ (- e))
          /\ fmt_f 18 17 r =
             (sign_prefix (Binary32.sign_bit r) ++ unsigned_decimal (k / 10 ^ 17)
              ++ "." ++ digits 17 (k mod 10 ^ 17))%string
          /\ decimal_value (unsigned_decimal (k / 10 ^ 17)) = Some (k / 10 ^ 17)
          /\ parse_from 0 (digits 17 (k mod 10 ^ 17)) = Some (k mod 10 ^ 17)
          /\ String.length (digits 17 (k mod 10 ^ 17)) = 17%nat)
  /\ (0 <= a1 /\ decimal_value (fmt_lu a1) = Some a1)
  /\ (0 <= a2 /\ decimal_value (fmt_lu a2) = Some a2)
  /\ (0 <= a3 /\ decimal_value (fmt_lu a3) = Some a3)
  /\ (forall clock' : nat -> Z,
        main clock' pow argc argv (start env) = Undefined
        \/ exists b1 b2 b3 : Z,
            main clock' pow argc argv (start env) =
            Done 0 (World env (6 * n)
                      (report "math.h pow function" r1 b1
                       ++ report "cmath sqrt function" 0x40CF623A b2
                       ++ report "Newton's Method" 0x40CF623A b3
                       ++ nl)%string)).
Proof.
  intros Hs. cbv zeta.
  assert (Havg : forall k, 0 <= average clock k 10000
                           /\ decimal_value (fmt_lu (average clock k 10000)) =
                              Some (average clock k 10000)).
  { intros k. unfold average.
    destruct (steady_measured clock Hs (Z.to_nat 10000) k) as [Hpos Hsum].
    assert (H0 : 0 <= sum (measured clock k (Z.to_nat 10000)))
      by (clear - Hpos; induction Hpos; simpl; lia).
    pose proof (Hs k) as [[Hk _] _].
    pose proof (Hs (k + 2 * Z.to_nat 10000)%nat) as [_ Hmax].
    set (t := sum (measured clock k (Z.to_nat 10000))) in *. clearbody t.
    unfold Int.int64_max in Hmax.
    assert (Hq : 0 <= t / 10000 <= t) by div_lia.
    split; [lia|].
    rewrite fmt_lu_value. f_equal. apply Z.mod_small. lia. }
  split.
  { eexists. split; [apply main_done, Hs|].
    cbn [stdout]. unfold output_text, timings. cbv zeta.
    rewrite !report_text_42. reflexivity. }
  split; [vm_compute; reflexivity|].
  split; [intros r s m e; apply fmt_f_digits|].
  split; [apply Havg|]. split; [apply Havg|]. split; [apply Havg|].
  intros clock'.
  destruct (main_outcome clock' pow argc argv env) as [HU | (b1 & b2 & b3 & HD)];
    [left; exact HU | right].
  exists b1, b2, b3. rewrite HD. unfold output_text.
  rewrite !report_text_42. reflexivity.
Qed.

Lemma main_output_witness :
  exists w',
    main sample_clock Sample.pow_rounded 1 ["sqrt"%string] (start []) = Done 0 w'
    /\ fmt_f 18 17 0x40CF623A = "6.48074054718017578"%string.
Proof.
  destruct (main_output sample_clock Sample.pow_rounded 1 ["sqrt"%string] []
              sample_clock_steady) as ((w' & Hrun & _) & Hfmt & _).
  exists w'. split; [exact Hrun | exact Hfmt].
Defined.
